(** * ChartContainer layout: a shallow embedding of [render]

    This development embeds the layout part of
    [src/components/ChartContainer.js] (the [render] method: axis column
    widths, time scale, vertical stacking of the rows, hover tracker, the
    element returned) and checks the statements of the specification
    against it; the symbols of [LegendItem.tsx] are embedded as well.

    Conventions of the embedding.
    - A JavaScript number is [Num z] for an integer [z] or [NaN]; pixel
      quantities are integers.  Infinities and fractions are not
      represented, and sums and differences are exact: this is the
      arithmetic of the program on the integers of magnitude up to 2^53
      ([safeInteger]), and the statements that need exact sums say in which
      range they hold.  Instants are exact rationals (milliseconds since
      the epoch), pixel positions on the time axis are rationals.
    - A JavaScript array is a record of its integer-keyed own properties
      (a [gmap Z Z]) and its [length]; writing past the end leaves holes.
    - A [throw] is the [Throw] constructor of [result].
    - The conversions of strings to numbers ([Number] and [parseInt] on a
      string) are taken as parameters of the embedding, and so is
      [parseInt] on the exponent notation of a number of magnitude 10^21
      or more.
    - The children of a row are elements or [null].  The children of the
      container are elements in [Props], as its [propTypes] declare;
      [renderChildren] takes the children as [React.Children.forEach]
      hands them over, [null] among them.
    - What the sources do not contain (d3-scale, pondjs) is modelled from
      the specification and marked so. *)

From Stdlib Require Import ZArith QArith Lia Lqa List String Permutation Sorted.
From stdpp Require Import base option list strings gmap.

#[local] Open Scope Z_scope.

(** ** JavaScript values *)

Inductive jsnum : Type :=
| Num (z : Z)
| NaN.

Inductive jsval : Type :=
| JUndefined
| JNull
| JBool (b : bool)
| JNumber (n : jsnum)
| JString (s : string).

(** [a + b], [a - b] and unary minus on numbers; [NaN] is absorbing. *)
Definition jsadd (a b : jsnum) : jsnum :=
  match a, b with
  | Num x, Num y => Num (x + y)
  | _, _ => NaN
  end.

Definition jssub (a b : jsnum) : jsnum :=
  match a, b with
  | Num x, Num y => Num (x - y)
  | _, _ => NaN
  end.

Definition jsneg (a : jsnum) : jsnum :=
  match a with
  | Num x => Num (- x)
  | NaN => NaN
  end.

(** Truthiness of a value (the test of [if], [?:], [||], [&&] and [!]). *)
Definition truthy (v : jsval) : bool :=
  match v with
  | JUndefined | JNull => false
  | JBool b => b
  | JNumber (Num z) => negb (z =? 0)
  | JNumber NaN => false
  | JString s => negb (String.eqb s EmptyString)
  end.

(** [n || d] for a number [n] and a non-zero default [d]: [0] and [NaN] are
    falsy. *)
Definition num_or (n : jsnum) (d : Z) : Z :=
  match n with
  | Num z => if z =? 0 then d else z
  | NaN => d
  end.

(** ** JavaScript arrays of numbers *)

Record jsarray : Type := JsArray {
  items : gmap Z Z;
  alen : Z
}.

Definition arr_empty : jsarray := JsArray ∅ 0.

(** [a[i]]: [None] is [undefined] (a hole, or an index out of range). *)
Definition arr_get (a : jsarray) (i : Z) : option Z := items a !! i.

(** [a[i] = v]: an index at or past the end extends the array; a negative
    key is an ordinary property and leaves [length] alone. *)
Definition arr_set (a : jsarray) (i : Z) (v : Z) : jsarray :=
  JsArray (<[i := v]> (items a))
          (if 0 <=? i then Z.max (alen a) (i + 1) else alen a).

(** [memo + a[i]] inside [_.reduce]: a hole reads as [undefined]. *)
Definition add_elem (a : jsarray) (memo : jsnum) (i : Z) : jsnum :=
  match arr_get a i with
  | Some v => jsadd memo (Num v)
  | None => NaN
  end.

(** [_.reduce(a, (x, y) => x + y, 0)]: underscore walks the indices
    [0 .. length-1]. *)
Definition arr_sum (a : jsarray) : jsnum :=
  fold_left (add_elem a) (seqZ 0 (alen a)) (Num 0).

(** ** Errors *)

(** What [render] throws: the error of [invariant], the [Error] of line
    222, and the [TypeError] of a property read on [null]. *)
Inductive error : Type :=
| InvariantViolation (msg : string)
| InvalidTimerange (msg : string)
| TypeError.

Inductive result (A : Type) : Type :=
| Ok (a : A)
| Throw (e : error).
Arguments Ok {A} a.
Arguments Throw {A} e.

#[global] Instance result_ret : MRet result := fun A a => Ok a.
#[global] Instance result_bind : MBind result := fun A B k r =>
  match r with
  | Ok a => k a
  | Throw e => Throw e
  end.

(** ** Elements of the component tree *)

Inductive component : Type :=
| ChartRow
| Charts
| Brush
| MultiBrush
| OtherComponent (name : string).

#[global] Instance component_eq_dec : EqDecision component.
Proof. solve_decision. Defined.

(** [areComponentsEqual(a, b)] of react-hot-loader: the two element types
    denote the same component. *)
Definition areComponentsEqual (a b : component) : bool := bool_decide (a = b).

(** A child of a row: [props.width] is [JUndefined] when the prop is not
    given; [props.visible] is [None] when [props] has no such key. *)
Record element : Type := Element {
  etype : component;
  ewidth : jsval;
  evisible : option jsval
}.

(** A child of the container.  [React.Children.forEach] hands a [null]
    child of the row to the callback as [null]: [None] in [rchildren]. *)
Record rowElement : Type := Row {
  rtype : component;
  rchildren : list (option element);
  rvisible : jsval;
  rheight : jsval
}.

(** A pondjs [TimeRange]: begin and end instants, in milliseconds. *)
Record TimeRange : Type := MkTimeRange {
  tbegin : Q;
  tend : Q
}.

(** The props of the container that [render] reads, after [defaultProps]
    ([width] 800, [padding] 0, [utc] false, [showGridPosition] "over"). *)
Record Props : Type := MkProps {
  children : list rowElement;
  width : Z;
  padding : Z;
  paddingLeft : option Z;
  paddingRight : option Z;
  timeAxisHeight : option Z;
  timeRange : option TimeRange;
  utc : bool;
  trackerPosition : option Q;
  showGridOver : bool
}.

(** [const { x = d } = props]: the default applies when the prop is absent. *)
Definition prop_or (p : option Z) (d : Z) : Z := default d p.

(** ** The axis column widths (lines 141-206) *)

Inductive alignment : Type := AlignLeft | AlignRight.

Record counts : Type := Counts {
  countLeft : Z;
  countCharts : Z;
  calign : alignment
}.

Record widths : Type := Widths {
  leftAxisWidths : jsarray;
  rightAxisWidths : jsarray
}.

Record placing : Type := Placing {
  palign : alignment;
  pos : Z;
  pwidths : widths
}.

Definition invariant_msg : string :=
  "ChartRow should have one and only one <Charts> tag within it".

(** First walk over the children of a row: the number of columns left of
    the [Charts] tag and the number of [Charts] tags. *)
Definition count_step (st : counts) (child : option element) : counts :=
  match child with
  | None => st
  | Some c =>
      if areComponentsEqual (etype c) Charts then
        Counts (countLeft st) (countCharts st + 1) AlignRight
      else if negb (areComponentsEqual (etype c) Brush)
              && negb (areComponentsEqual (etype c) MultiBrush) then
        match calign st with
        | AlignLeft => Counts (countLeft st + 1) (countCharts st) (calign st)
        | AlignRight => st
        end
      else st
  end.

(** [a[pos] = a[pos] ? Math.max(width, a[pos]) : width]. *)
Definition widen (a : jsarray) (pos width : Z) : jsarray :=
  arr_set a pos
    (match arr_get a pos with
     | Some cur => if cur =? 0 then width else Z.max width cur
     | None => width
     end).

Section Embedding.

(** [Number(s)] and [parseInt(s, 10)] for a string [s], and
    [parseInt(n, 10)] for a number [n] that is printed in exponent
    notation. *)
Variable StringToNumber : string -> jsnum.
Variable StringParseInt : string -> jsnum.
Variable ExponentParseInt : Z -> jsnum.

Definition Number (v : jsval) : jsnum :=
  match v with
  | JUndefined => NaN
  | JNull => Num 0
  | JBool b => Num (if b then 1 else 0)
  | JNumber n => n
  | JString s => StringToNumber s
  end.

(** [parseInt(v, 10)]: the argument is first turned into a string, so only
    numbers and strings can give a number.  An integer below 10^21 in
    magnitude is printed with all its digits and read back as itself; from
    10^21 on it is printed in exponent notation, of which [parseInt] reads
    the digits before the point. *)
Definition parseInt10 (v : jsval) : jsnum :=
  match v with
  | JNumber (Num z) =>
      if Z.abs z <? 10 ^ 21 then Num z else ExponentParseInt z
  | JNumber NaN => NaN
  | JString s => StringParseInt s
  | _ => NaN
  end.

(** [!_.has(child.props, "visible") || child.props.visible]. *)
Definition slotVisible (child : element) : bool :=
  match evisible child with
  | None => true
  | Some v => truthy v
  end.

(** The width an axis child asks for (lines 188-190). *)
Definition axisWidth (child : element) : Z :=
  let width := num_or (Number (ewidth child)) 40 in
  let visible := slotVisible child in
  if negb visible then 0 else width.

(** Second walk over the children of a row (lines 176-204). *)
Definition place_step (st : placing) (child : option element) : placing :=
  match child with
  | None => st
  | Some c =>
      if areComponentsEqual (etype c) Charts
         || areComponentsEqual (etype c) Brush
         || areComponentsEqual (etype c) MultiBrush then
        if areComponentsEqual (etype c) Charts
        then Placing AlignRight 0 (pwidths st)
        else st
      else
        let width := axisWidth c in
        match palign st with
        | AlignLeft =>
            Placing (palign st) (pos st - 1)
              (Widths (widen (leftAxisWidths (pwidths st)) (pos st) width)
                      (rightAxisWidths (pwidths st)))
        | AlignRight =>
            Placing (palign st) (pos st + 1)
              (Widths (leftAxisWidths (pwidths st))
                      (widen (rightAxisWidths (pwidths st)) (pos st) width))
        end
  end.

(** The body of the first [forEach] over the children of the container. *)
Definition layoutRow (w : widths) (childRow : rowElement) : result widths :=
  if areComponentsEqual (rtype childRow) ChartRow then
    let c := fold_left count_step (rchildren childRow) (Counts 0 0 AlignLeft) in
    if negb (countCharts c =? 1) then Throw (InvariantViolation invariant_msg)
    else
      let p := fold_left place_step (rchildren childRow)
                 (Placing AlignLeft (countLeft c - 1) w) in
      Ok (pwidths p)
  else Ok w.

Fixpoint layoutRows (rows : list rowElement) (w : widths) : result widths :=
  match rows with
  | [] => Ok w
  | childRow :: rest => w' ← layoutRow w childRow; layoutRows rest w'
  end.

Definition computeAxisWidths (rows : list rowElement) : result widths :=
  layoutRows rows (Widths arr_empty arr_empty).

(** ** The time scale (lines 216-231) *)

(** The scale object built by
    [scaleTime()] or [scaleUtc()], [.domain(d)], [.range([0, w])]. *)
Record timescale : Type := TimeScale {
  sutc : bool;
  sdomain : Q * Q;
  srange : Z * jsnum
}.

(** [timeRange.toJSON()]: the pair of the two instants. *)
Definition toJSON (tr : TimeRange) : Q * Q := (tbegin tr, tend tr).

Definition timerange_msg : string := "Invalid timerange passed to ChartContainer".

(** [this.props.width - leftWidth - rightWidth - paddingLeft - paddingRight],
    computed for [timeAxisWidth] and again for [chartsWidth]. *)
Definition plotWidth (P : Props) (leftWidth rightWidth : jsnum) : jsnum :=
  let paddingLeft := prop_or (paddingLeft P) (padding P) in
  let paddingRight := prop_or (paddingRight P) (padding P) in
  jssub (jssub (jssub (jssub (Num (width P)) leftWidth) rightWidth)
               (Num paddingLeft))
        (Num paddingRight).

Definition buildTimeScale (P : Props) (leftWidth rightWidth : jsnum)
  : result timescale :=
  let timeAxisWidth := plotWidth P leftWidth rightWidth in
  match timeRange P with
  | None => Throw (InvalidTimerange timerange_msg)
  | Some tr => Ok (TimeScale (utc P) (toJSON tr) (0, timeAxisWidth))
  end.

(** ** The rows (lines 233-275) *)

(** What is pushed on [chartRows]: the [<g>] with its key
    [chart-row-row-i], its [translate(x, y)], and the row it wraps with the
    [trackerShowTime] prop it is cloned with. *)
Record renderedRow : Type := RenderedRow {
  rkey : Z;
  rx : jsnum;
  ry : jsnum;
  rtrackerShowTime : bool;
  relem : rowElement
}.

Record stacking : Type := Stacking {
  si : Z;
  yPosition : jsnum;
  chartRows : list renderedRow
}.

Definition stack_step (leftWidth : jsnum) (paddingLeft : Z)
    (st : stacking) (child : rowElement) : stacking :=
  let st' :=
    if areComponentsEqual (rtype child) ChartRow then
      let firstRow := si st =? 0 in
      let isVisible := truthy (rvisible child) in
      let x := jssub (jsneg leftWidth) (Num paddingLeft) in
      if isVisible then
        Stacking (si st)
                 (jsadd (yPosition st) (parseInt10 (rheight child)))
                 (chartRows st ++
                  [RenderedRow (si st) x (yPosition st) firstRow child])
      else st
    else st in
  Stacking (si st' + 1) (yPosition st') (chartRows st').

(** ** The hover tracker (lines 277-302) *)

(** Modelled from the spec: pondjs is not part of the sources; its
    [TimeRange.contains(date)] is the containment test of the data model,
    begin <= date <= end. *)
Definition contains (tr : TimeRange) (t : Q) : bool :=
  Qle_bool (tbegin tr) t && Qle_bool t (tend tr).

(** The [<g>] of the tracker: its horizontal translation and the props of
    the [TimeMarker] in it. *)
Record trackerMarker : Type := TrackerMarker {
  mx : jsnum;
  mwidth : jsnum;
  mheight : jsnum;
  mtime : Q
}.

(** ** [render] *)

Record rendered : Type := Rendered {
  oAxisWidths : widths;
  oLeftWidth : jsnum;
  oRightWidth : jsnum;
  oTimeScale : timescale;
  oChartRows : list renderedRow;
  oChartsHeight : jsnum;
  oChartsWidth : jsnum;
  oTracker : option trackerMarker;
  oSvgWidth : Z;
  oSvgHeight : jsnum;
  oGridOver : bool
}.

Definition render (P : Props) : result rendered :=
  let paddingLeft := prop_or (paddingLeft P) (padding P) in
  w ← computeAxisWidths (children P);
  let leftWidth := arr_sum (leftAxisWidths w) in
  let rightWidth := arr_sum (rightAxisWidths w) in
  let timeAxisHeight := prop_or (timeAxisHeight P) 35 in
  timeScale ← buildTimeScale P leftWidth rightWidth;
  let st := fold_left (stack_step leftWidth paddingLeft) (children P)
              (Stacking 0 (Num 0) []) in
  let chartsHeight := yPosition st in
  let chartsWidth := plotWidth P leftWidth rightWidth in
  let tracker :=
    match trackerPosition P, timeRange P with
    | Some t, Some tr =>
        if contains tr t then
          Some (TrackerMarker (jsadd leftWidth (Num paddingLeft))
                              chartsWidth chartsHeight t)
        else None
    | _, _ => None
    end in
  Ok (Rendered w leftWidth rightWidth timeScale (chartRows st)
               chartsHeight chartsWidth tracker
               (width P) (jsadd (yPosition st) (Num timeAxisHeight))
               (showGridOver P)).

End Embedding.

(** ** The linear time scale *)

(** Modelled from the spec: d3-scale is not part of the sources.  The time
    scale is the linear map from [[b, e]] onto [[0, w]] and its inverse
    (a degenerate domain [b = e] is sent to [0], the low end of the range). *)
Definition linear_apply (b e w t : Q) : Q := ((t - b) * w / (e - b))%Q.

Definition linear_invert (b e w x : Q) : Q := (b + x * (e - b) / w)%Q.

(** Modelled from the spec: [timeScale(t)] and [timeScale.invert(x)] of the
    d3 scale object, as the linear map between its domain and its range;
    [None] stands for [NaN]. *)
Definition scale_apply (sc : timescale) (t : Q) : option Q :=
  match snd (srange sc) with
  | Num w => Some (inject_Z (fst (srange sc)) +
                   linear_apply (fst (sdomain sc)) (snd (sdomain sc))
                     (inject_Z w - inject_Z (fst (srange sc))) t)%Q
  | NaN => None
  end.

Definition scale_invert (sc : timescale) (x : Q) : option Q :=
  match snd (srange sc) with
  | Num w => Some (linear_invert (fst (sdomain sc)) (snd (sdomain sc))
                     (inject_Z w - inject_Z (fst (srange sc)))
                     (x - inject_Z (fst (srange sc))))%Q
  | NaN => None
  end.

(** ** The column widths in the words of the specification *)

(** The array with the elements of [l], without holes. *)
Definition arr_of_list (l : list Z) : jsarray :=
  JsArray (map_seqZ 0 l) (Z.of_nat (length l)).

Definition isPlot (child : option element) : bool :=
  match child with
  | Some c => areComponentsEqual (etype c) Charts
  | None => false
  end.

(** An axis slot: a child that is neither [null], the plot, nor a brush. *)
Definition isAxisSlot (child : option element) : bool :=
  match child with
  | Some c => negb (areComponentsEqual (etype c) Charts)
              && negb (areComponentsEqual (etype c) Brush)
              && negb (areComponentsEqual (etype c) MultiBrush)
  | None => false
  end.

Definition axisSlots (cs : list (option element)) : list element :=
  omap (fun child => if isAxisSlot child then child else None) cs.

Fixpoint plotCount (cs : list (option element)) : nat :=
  match cs with
  | [] => 0
  | child :: rest => (if isPlot child then 1 else 0) + plotCount rest
  end.

(** The slots before the plot slot, and those after it, in declared order. *)
Fixpoint slotsBefore (cs : list (option element)) : list element :=
  match cs with
  | [] => []
  | child :: rest =>
      if isPlot child then []
      else axisSlots [child] ++ slotsBefore rest
  end.

Fixpoint slotsAfter (cs : list (option element)) : list element :=
  match cs with
  | [] => []
  | child :: rest => if isPlot child then axisSlots rest else slotsAfter rest
  end.

(** The rows of the container: its children that are [ChartRow]s. *)
Definition chartRowsOf (rows : list rowElement) : list rowElement :=
  filter (fun r => rtype r = ChartRow) rows.

(** The maximum over the rows of the width at position [pos], a row without
    a slot there counting for 0, and the number of positions in use. *)
Definition maxAt (rowWidths : list (list Z)) (pos : nat) : Z :=
  foldr Z.max 0 ((fun ws => nth pos ws 0) <$> rowWidths).

Definition columns (rowWidths : list (list Z)) : nat :=
  foldr Nat.max 0%nat (length <$> rowWidths).

Definition columnMaxima (rowWidths : list (list Z)) : list Z :=
  maxAt rowWidths <$> seq 0 (columns rowWidths).

Definition sumZ (l : list Z) : Z := foldr Z.add 0 l.

Section SpecDefinitions.

Variable StringToNumber : string -> jsnum.
Variable StringParseInt : string -> jsnum.
Variable ExponentParseInt : Z -> jsnum.

(** The width of a slot in the words of the specification: 0 for a slot
    that is not visible whatever it declares, otherwise the width it
    declares, 40 when it declares none (or no number). *)
Definition declaredWidth (c : element) : Z :=
  if slotVisible c then
    match Number StringToNumber (ewidth c) with
    | Num z => z
    | NaN => 40
    end
  else 0.

(** The width of a slot when a declared width of 0 counts as none
    declared: a visible slot that declares 0 has the default 40. *)
Definition slotWidth (c : element) : Z :=
  if slotVisible c && (declaredWidth c =? 0) then 40 else declaredWidth c.

(** The declared widths of the slots of a row, by distance from the plot
    slot. *)
Definition leftDeclaredWidths (r : rowElement) : list Z :=
  reverse (declaredWidth <$> slotsBefore (rchildren r)).

Definition rightDeclaredWidths (r : rowElement) : list Z :=
  declaredWidth <$> slotsAfter (rchildren r).

(** The statement of the specification for the two arrays: at each
    position the maximum over the rows of the declared width of the slot
    there. *)
Definition columnsAsSpecified (rows : list rowElement) (w : widths) : Prop :=
  leftAxisWidths w
  = arr_of_list (columnMaxima (leftDeclaredWidths <$> chartRowsOf rows))
  /\ rightAxisWidths w
     = arr_of_list (columnMaxima (rightDeclaredWidths <$> chartRowsOf rows)).

(** The widths of the slots of a row, by distance from the plot slot. *)
Definition leftSlotWidths (r : rowElement) : list Z :=
  reverse (slotWidth <$> slotsBefore (rchildren r)).

Definition rightSlotWidths (r : rowElement) : list Z :=
  slotWidth <$> slotsAfter (rchildren r).

(** A row is well formed when it has exactly one plot slot; its widths are
    pixel widths when none is negative. *)
Definition rows_valid (rows : list rowElement) : Prop :=
  Forall (fun r => plotCount (rchildren r) = 1%nat) (chartRowsOf rows).

Definition widths_nonneg (rows : list rowElement) : Prop :=
  Forall (fun r => Forall (Z.le 0) (leftSlotWidths r)
                   /\ Forall (Z.le 0) (rightSlotWidths r))
         (chartRowsOf rows).

(** The widths of all the slots of all the rows, added up. *)
Definition slotTotal (rows : list rowElement) : Z :=
  sumZ ((fun r => sumZ (leftSlotWidths r) + sumZ (rightSlotWidths r))
          <$> chartRowsOf rows).

(** *** The stacking of the rows as a function of the visible rows *)

(** The rows that are rendered: the [ChartRow]s whose [visible] is truthy. *)
Definition rowShown (r : rowElement) : bool :=
  areComponentsEqual (rtype r) ChartRow && truthy (rvisible r).

Definition shownRows (rows : list rowElement) : list rowElement :=
  filter (fun r => rowShown r = true) rows.

(** The statement of the specification that every row, an invisible one
    too, has its entry in the sequence of offsets. *)
Definition every_row_has_offset (rows : list rowElement) (out : rendered) : Prop :=
  length (oChartRows out) = length (chartRowsOf rows).

Definition rowHeight (r : rowElement) : jsnum :=
  parseInt10 StringParseInt ExponentParseInt (rheight r).

(** The running sum of the heights of [rs], from [y]. *)
Definition sumHeights (y : jsnum) (rs : list rowElement) : jsnum :=
  fold_left (fun acc r => jsadd acc (rowHeight r)) rs y.

(** What the third walk pushes, from index [i] and offset [y]. *)
Fixpoint stacked (leftWidth : jsnum) (paddingLeft : Z) (i : Z) (y : jsnum)
    (rows : list rowElement) : list renderedRow :=
  match rows with
  | [] => []
  | r :: rest =>
      if rowShown r then
        RenderedRow i (jssub (jsneg leftWidth) (Num paddingLeft)) y (i =? 0) r
        :: stacked leftWidth paddingLeft (i + 1) (jsadd y (rowHeight r)) rest
      else stacked leftWidth paddingLeft (i + 1) y rest
  end.

End SpecDefinitions.

(** The value [widen] writes: the running maximum, or [width] itself when
    the cell is empty or holds 0. *)
Definition widened (cur : option Z) (width : Z) : Z :=
  match cur with
  | Some c => if c =? 0 then width else Z.max width c
  | None => width
  end.

(** The writes of the right side of a row, walking away from the plot, and
    of its left side, walking towards it. *)
Fixpoint widen_up (a : jsarray) (p : Z) (ws : list Z) : jsarray :=
  match ws with
  | [] => a
  | w :: rest => widen_up (widen a p w) (p + 1) rest
  end.

Fixpoint widen_down (a : jsarray) (p : Z) (ws : list Z) : jsarray :=
  match ws with
  | [] => a
  | w :: rest => widen_down (widen a p w) (p - 1) rest
  end.

(** What one row does to a hole-free array, position by position. *)
Fixpoint merge (l ws : list Z) : list Z :=
  match l, ws with
  | [], _ => ws
  | _, [] => l
  | c :: l', w :: ws' => widened (Some c) w :: merge l' ws'
  end.

(** ** Example trees *)

Definition yAxis (w : Z) : option element :=
  Some (Element (OtherComponent "YAxis") (JNumber (Num w)) None).

Definition hiddenAxis (w : Z) : option element :=
  Some (Element (OtherComponent "YAxis") (JNumber (Num w)) (Some (JBool false))).

Definition chartsTag : option element := Some (Element Charts JUndefined None).

Definition chartRow (cs : list (option element)) (visible : bool) (height : Z)
  : rowElement :=
  Row ChartRow cs (JBool visible) (JNumber (Num height)).

(** Rows [leftAxis(40), plot, rightAxis(30)] and
    [leftAxis(25), leftAxis(40), plot]. *)
Definition exampleRows : list rowElement :=
  [ chartRow [yAxis 40; chartsTag; yAxis 30] true 100;
    chartRow [yAxis 25; yAxis 40; chartsTag] true 100 ].

(** String conversions for closed examples without strings in them, and
    the reading of exponent notation for examples without a number that
    large. *)
Definition noNumber : string -> jsnum := fun _ => NaN.

Definition noExponent : Z -> jsnum := fun _ => NaN.

(** ** Example containers *)

Definition containerOf (rows : list rowElement) (w : Z) (tr : option TimeRange)
    (tracker : option Q) : Props :=
  MkProps rows w 0 None None None tr false tracker true.

(** A valid row followed by a row with two plot slots. *)
Definition twoPlotProps : Props :=
  containerOf [ chartRow [yAxis 40; chartsTag; yAxis 30] true 100;
                chartRow [yAxis 40; chartsTag; chartsTag] true 100 ]
              800 (Some (MkTimeRange 0 100000)) None.

(** A container narrower than its one axis column. *)
Definition narrowProps : Props :=
  containerOf [ chartRow [yAxis 40; chartsTag] true 100 ]
              10 (Some (MkTimeRange 0 100000)) None.

(** A time range that ends before it begins. *)
Definition reversedProps : Props :=
  containerOf [ chartRow [yAxis 40; chartsTag] true 100 ]
              800 (Some (MkTimeRange 100000 0)) None.

(** Container 800 wide over the example rows, no padding, time range
    0 ms to 100000 ms. *)
Definition scenarioProps : Props :=
  containerOf exampleRows 800 (Some (MkTimeRange 0 100000)) None.

(** A visible row between two visible rows is hidden. *)
Definition hiddenRowProps : Props :=
  containerOf [ chartRow [chartsTag] true 100;
                chartRow [chartsTag] false 50;
                chartRow [chartsTag] true 200 ]
              800 (Some (MkTimeRange 0 100000)) None.

(** A row without a plot slot after a valid row. *)
Definition noPlotRow : rowElement := chartRow [yAxis 40; yAxis 30] true 100.

Definition noPlotProps : Props :=
  containerOf [ chartRow [yAxis 40; chartsTag] true 100; noPlotRow ]
              800 (Some (MkTimeRange 0 100000)) None.

(** The scenario with the tracker at 50000 ms. *)
Definition trackedProps : Props :=
  containerOf exampleRows 800 (Some (MkTimeRange 0 100000)) (Some 50000%Q).



(** ** The rest of [render] (lines 304-404) *)

(** The [<g>] of the time axis: its [translate(x, y)], the two ends of the
    baseline [<line>] in it, and the scale, flag and grid height handed to
    [TimeAxis]. *)
Record timeAxisGroup : Type := TimeAxisGroup {
  axisX : jsnum;
  axisY : jsnum;
  lineX1 : jsnum;
  lineX2 : jsnum;
  axisScale : timescale;
  axisUtc : bool;
  gridHeight : jsnum
}.

(** The [<g>] of the rows: its [translate(x, 0)] and the [EventHandler] in
    it, with its width, height, scale and the rows it wraps. *)
Record eventHandlerGroup : Type := EventHandlerGroup {
  handlerX : jsnum;
  handlerWidth : jsnum;
  handlerHeight : jsnum;
  handlerScale : timescale;
  handlerRows : list renderedRow
}.

Inductive svgChild : Type :=
| SvgRows (g : eventHandlerGroup)
| SvgTracker (m : trackerMarker)
| SvgTimeAxis (a : timeAxisGroup).

Record svgElement : Type := SvgElement {
  svgWidth : Z;
  svgHeight : jsnum;
  svgChildren : list svgChild
}.

(** What [render] returns, from the values it has computed so far.  An
    [undefined] tracker renders nothing. *)
Definition svgOf (P : Props) (out : rendered) : svgElement :=
  let paddingLeft := prop_or (paddingLeft P) (padding P) in
  let timeAxisHeight := prop_or (timeAxisHeight P) 35 in
  let leftWidth := oLeftWidth out in
  let rightWidth := oRightWidth out in
  let chartsHeight := oChartsHeight out in
  let chartsWidth := oChartsWidth out in
  let timeAxis :=
    TimeAxisGroup (jsadd leftWidth (Num paddingLeft)) chartsHeight
                  (jsneg leftWidth) (jsadd chartsWidth rightWidth)
                  (oTimeScale out) (utc P) chartsHeight in
  let rows :=
    EventHandlerGroup (jsadd leftWidth (Num paddingLeft)) chartsWidth
                      (jsadd chartsHeight (Num timeAxisHeight))
                      (oTimeScale out) (oChartRows out) in
  let tracker :=
    match oTracker out with
    | Some m => [SvgTracker m]
    | None => []
    end in
  SvgElement (oSvgWidth out) (oSvgHeight out)
    (if oGridOver out
     then [SvgRows rows] ++ tracker ++ [SvgTimeAxis timeAxis]
     else [SvgTimeAxis timeAxis; SvgRows rows] ++ tracker).

(** The tracker of a pass over the time range [tr]. *)
Definition trackerOf (P : Props) (tr : TimeRange) (leftWidth chartsWidth
    chartsHeight : jsnum) : option trackerMarker :=
  match trackerPosition P with
  | Some t =>
      if contains tr t then
        Some (TrackerMarker
                (jsadd leftWidth (Num (prop_or (paddingLeft P) (padding P))))
                chartsWidth chartsHeight t)
      else None
  | None => None
  end.

(** The result of a pass whose widths are [w] and whose time range is
    [tr], field by field. *)
Definition renderedOf (StringParseInt : string -> jsnum)
    (ExponentParseInt : Z -> jsnum)
    (P : Props) (w : widths) (tr : TimeRange) : rendered :=
  let pl := prop_or (paddingLeft P) (padding P) in
  let lw := arr_sum (leftAxisWidths w) in
  let rw := arr_sum (rightAxisWidths w) in
  let h := sumHeights StringParseInt ExponentParseInt (Num 0)
             (shownRows (children P)) in
  Rendered w lw rw
    (TimeScale (utc P) (toJSON tr) (0, plotWidth P lw rw))
    (stacked StringParseInt ExponentParseInt lw pl 0 (Num 0) (children P))
    h (plotWidth P lw rw)
    (trackerOf P tr lw (plotWidth P lw rw) h)
    (width P)
    (jsadd h (Num (prop_or (timeAxisHeight P) 35)))
    (showGridOver P).

(** [render] with the element it returns (line 377). *)
Definition renderSvg (StringToNumber StringParseInt : string -> jsnum)
    (ExponentParseInt : Z -> jsnum)
    (P : Props) : result svgElement :=
  out ← render StringToNumber StringParseInt ExponentParseInt P;
  Ok (svgOf P out).

(** The container with other children. *)
Definition withChildren (P : Props) (rows : list rowElement) : Props :=
  MkProps rows (width P) (padding P) (paddingLeft P) (paddingRight P)
          (timeAxisHeight P) (timeRange P) (utc P) (trackerPosition P)
          (showGridOver P).

(** The two example rows on their own, the widths of the first alone and
    of both. *)
Definition firstExampleRow : rowElement :=
  chartRow [yAxis 40; chartsTag; yAxis 30] true 100.

Definition secondExampleRow : rowElement :=
  chartRow [yAxis 25; yAxis 40; chartsTag] true 100.

Definition firstRowWidths : widths := Widths (arr_of_list [40]) (arr_of_list [30]).

Definition exampleWidths : widths :=
  Widths (arr_of_list [40; 25]) (arr_of_list [30]).

(** A container whose only child is not a [ChartRow]. *)
Definition noRowProps : Props :=
  containerOf [ Row (OtherComponent "div") [] (JBool true) JUndefined ]
              800 (Some (MkTimeRange 0 100000)) None.

(** A visible slot that declares the width 0. *)
Definition zeroWidthSlot : element :=
  Element (OtherComponent "YAxis") (JNumber (Num 0)) None.

(** A row with its children in the opposite order. *)
Definition mirrorRow (r : rowElement) : rowElement :=
  Row (rtype r) (reverse (rchildren r)) (rvisible r) (rheight r).

(** A row without its [null] children and its brushes. *)
Definition keepsChild (child : option element) : bool :=
  isPlot child || isAxisSlot child.

Definition stripRow (r : rowElement) : rowElement :=
  Row (rtype r) (List.filter keepsChild (rchildren r)) (rvisible r) (rheight r).

(** A row whose one axis is visible and declares the width 0. *)
Definition zeroWidthRows : list rowElement :=
  [ chartRow [Some zeroWidthSlot; chartsTag] true 100 ].

(** A row whose axis is hidden, then a row whose axis declares the width
    -5. *)
Definition negativeRows : list rowElement :=
  [ chartRow [hiddenAxis 10; chartsTag] true 100;
    chartRow [yAxis (-5); chartsTag] true 100 ].

(** ** Children of the container that are no elements (line 141) *)








(** ** Exact arithmetic *)

(** The integers that the numbers of the program represent exactly; a sum
    or a difference of two of them is computed exactly when it is one of
    them. *)
Definition safeInteger (z : Z) : Prop := - 2 ^ 53 <= z <= 2 ^ 53.

(** A bound under which the five terms of the horizontal layout stay safe
    integers however they are added up. *)
Definition pixelBound : Z := 2 ^ 50.

(** ** The symbols of a legend item ([LegendItem.tsx], lines 48-93) *)

Module LegendItem.

(** [Math.round(n / 2)] for an integer [n]: a half is rounded up. *)
Definition roundHalf (n : Z) : Z := (n + 1) / 2.

(** The [<line>], [<rect>] and [<ellipse>] drawn in an [<svg>] of
    [symbolWidth] by [symbolHeight]. *)
Record line : Type := Line { x1 : Z; y1 : Z; x2 : Z; y2 : Z }.

Record rect : Type := Rect { x : Z; y : Z; rectWidth : Z; rectHeight : Z }.

Record ellipse : Type := Ellipse { cx : Z; cy : Z; rx : Z; ry : Z }.

Definition renderLine (symbolWidth symbolHeight : Z) : line :=
  Line 0 (roundHalf symbolWidth) symbolWidth (roundHalf symbolWidth).

Definition renderSwatch (symbolWidth symbolHeight : Z) : rect :=
  Rect 2 2 (symbolWidth - 4) (symbolHeight - 4).

Definition renderDot (symbolWidth symbolHeight : Z) : ellipse :=
  Ellipse (roundHalf symbolWidth + 2) (roundHalf symbolHeight + 1)
          (roundHalf symbolWidth - 2) (roundHalf symbolHeight - 2).

End LegendItem.

(** * Properties *)

(** ** Arrays: reading after writing *)

Lemma arr_ext (a b : jsarray) :
  (forall i, arr_get a i = arr_get b i) -> alen a = alen b -> a = b.
Proof.
  destruct a as [ma la], b as [mb lb]; unfold arr_get; simpl.
  intros Hget Hlen. f_equal; [ by apply map_eq | done ].
Qed.

Lemma arr_get_of_list (l : list Z) (i : Z) :
  arr_get (arr_of_list l) i = if decide (0 <= i) then l !! Z.to_nat i else None.
Proof.
  unfold arr_get, arr_of_list; simpl. rewrite lookup_map_seqZ.
  case_decide.
  - rewrite option_guard_True by done. simpl. by rewrite Z.sub_0_r.
  - by rewrite option_guard_False.
Qed.

Lemma arr_get_set (a : jsarray) (i j v : Z) :
  arr_get (arr_set a i v) j = if decide (i = j) then Some v else arr_get a j.
Proof. unfold arr_get, arr_set; simpl. apply lookup_insert. Qed.

Lemma arr_get_widen (a : jsarray) (p w i : Z) :
  arr_get (widen a p w) i =
  if decide (p = i) then Some (widened (arr_get a i) w) else arr_get a i.
Proof.
  unfold widen. rewrite arr_get_set. case_decide; [ subst | done ]. done.
Qed.

Lemma alen_widen (a : jsarray) (p w : Z) :
  0 <= p -> alen (widen a p w) = Z.max (alen a) (p + 1).
Proof.
  intros Hp. unfold widen, arr_set; simpl.
  destruct (0 <=? p) eqn:E; [ done | lia ].
Qed.

Lemma arr_get_widen_up (ws : list Z) (a : jsarray) (p i : Z) :
  arr_get (widen_up a p ws) i =
  match ws !! Z.to_nat (i - p) with
  | Some w => if decide (p <= i) then Some (widened (arr_get a i) w)
              else arr_get a i
  | None => arr_get a i
  end.
Proof.
  revert a p. induction ws as [|w ws IH]; intros a p; simpl; [ done | ].
  rewrite IH, arr_get_widen.
  destruct (decide (p = i)) as [->|Hne].
  - rewrite Z.sub_diag; simpl.
    replace (Z.to_nat (i - (i + 1))) with 0%nat by lia.
    rewrite decide_True by lia.
    destruct ws as [|w' ws']; simpl; [ done | ].
    by rewrite decide_False by lia.
  - destruct (decide (p <= i)) as [Hle|Hgt].
    + replace (Z.to_nat (i - p)) with (S (Z.to_nat (i - (p + 1)))) by lia.
      simpl. destruct (ws !! _); [ | done ]. by rewrite decide_True by lia.
    + replace (Z.to_nat (i - (p + 1))) with 0%nat by lia.
      replace (Z.to_nat (i - p)) with 0%nat by lia. simpl.
      destruct ws; simpl; [ done | ]. by rewrite decide_False by lia.
Qed.

Lemma alen_widen_up (ws : list Z) (a : jsarray) (p : Z) :
  0 <= p -> 0 <= alen a ->
  alen (widen_up a p ws) =
  if decide (ws = []) then alen a else Z.max (alen a) (p + Z.of_nat (length ws)).
Proof.
  revert a p. induction ws as [|w ws IH]; intros a p Hp Ha; simpl; [ done | ].
  rewrite IH by (rewrite ?alen_widen; lia). rewrite alen_widen by done.
  destruct ws; simpl; case_decide; simplify_eq; lia.
Qed.

Lemma arr_get_widen_down (ws : list Z) (a : jsarray) (p i : Z) :
  arr_get (widen_down a p ws) i =
  match ws !! Z.to_nat (p - i) with
  | Some w => if decide (i <= p) then Some (widened (arr_get a i) w)
              else arr_get a i
  | None => arr_get a i
  end.
Proof.
  revert a p. induction ws as [|w ws IH]; intros a p; simpl; [ done | ].
  rewrite IH, arr_get_widen.
  destruct (decide (p = i)) as [->|Hne].
  - rewrite Z.sub_diag; simpl.
    replace (Z.to_nat (i - 1 - i)) with 0%nat by lia.
    rewrite decide_True by lia.
    destruct ws as [|w' ws']; simpl; [ done | ].
    by rewrite decide_False by lia.
  - destruct (decide (i <= p)) as [Hle|Hgt].
    + replace (Z.to_nat (p - i)) with (S (Z.to_nat (p - 1 - i))) by lia.
      simpl. destruct (ws !! _); [ | done ]. by rewrite decide_True by lia.
    + replace (Z.to_nat (p - 1 - i)) with 0%nat by lia.
      replace (Z.to_nat (p - i)) with 0%nat by lia. simpl.
      destruct ws; simpl; [ done | ]. by rewrite decide_False by lia.
Qed.

Lemma alen_widen_down (ws : list Z) (a : jsarray) (p : Z) :
  Z.of_nat (length ws) <= p + 1 -> 0 <= alen a ->
  alen (widen_down a p ws) =
  if decide (ws = []) then alen a else Z.max (alen a) (p + 1).
Proof.
  revert a p. induction ws as [|w ws IH]; intros a p Hp Ha; simpl; [ done | ].
  simpl in Hp.
  rewrite IH by (rewrite ?alen_widen; lia). rewrite alen_widen by lia.
  destruct ws; simpl; case_decide; simplify_eq; lia.
Qed.

Lemma merge_lookup (l ws : list Z) (i : nat) :
  merge l ws !! i =
  match ws !! i with
  | Some w => Some (widened (l !! i) w)
  | None => l !! i
  end.
Proof.
  revert ws i. induction l as [|c l IH]; intros ws i; simpl.
  - rewrite lookup_nil. by destruct (ws !! i).
  - destruct ws as [|w ws]; [ done | ].
    destruct i as [|i]; simpl; [ done | apply IH ].
Qed.

Lemma merge_length (l ws : list Z) :
  length (merge l ws) = Nat.max (length l) (length ws).
Proof.
  revert ws. induction l as [|c l IH]; intros ws; simpl; [ done | ].
  destruct ws as [|w ws]; simpl; [ done | by rewrite IH ].
Qed.

Lemma widen_up_of_list (l ws : list Z) :
  widen_up (arr_of_list l) 0 ws = arr_of_list (merge l ws).
Proof.
  apply arr_ext.
  - intros i. rewrite arr_get_widen_up, !arr_get_of_list, Z.sub_0_r.
    destruct (decide (0 <= i)) as [Hi|Hi].
    + rewrite merge_lookup. by destruct (ws !! Z.to_nat i).
    + by destruct (ws !! Z.to_nat i).
  - rewrite alen_widen_up by (simpl; lia). simpl.
    rewrite merge_length. case_decide; subst; simpl; lia.
Qed.

Lemma widen_down_of_list (l ws : list Z) :
  widen_down (arr_of_list l) (Z.of_nat (length ws) - 1) ws =
  arr_of_list (merge l (reverse ws)).
Proof.
  apply arr_ext.
  - intros i. rewrite arr_get_widen_down, !arr_get_of_list, merge_lookup.
    destruct (decide (0 <= i)) as [Hi|Hi].
    + destruct (decide (i <= Z.of_nat (length ws) - 1)) as [Hp|Hp].
      * rewrite reverse_lookup by lia.
        replace (length ws - S (Z.to_nat i))%nat
          with (Z.to_nat (Z.of_nat (length ws) - 1 - i)) by lia.
        by destruct (ws !! _).
      * rewrite (lookup_ge_None_2 (reverse ws)) by (rewrite length_reverse; lia).
        by destruct (ws !! _).
    + rewrite (lookup_ge_None_2 ws) by lia. done.
  - rewrite alen_widen_down by (simpl; lia). simpl.
    rewrite merge_length, length_reverse. case_decide; subst; simpl; lia.
Qed.

(** ** Per-position maxima *)

Lemma foldr_max_nonneg (l : list Z) : 0 <= foldr Z.max 0 l.
Proof. induction l; simpl; lia. Qed.

Lemma maxAt_nonneg (rws : list (list Z)) (i : nat) : 0 <= maxAt rws i.
Proof. apply foldr_max_nonneg. Qed.

Lemma maxAt_snoc (rws : list (list Z)) (ws : list Z) (i : nat) :
  maxAt (rws ++ [ws]) i = Z.max (maxAt rws i) (Z.max (nth i ws 0) 0).
Proof.
  unfold maxAt. rewrite fmap_app, foldr_app. simpl.
  set (b := Z.max (nth i ws 0) 0). assert (0 <= b) as Hb by lia. clearbody b.
  induction rws as [|ws' rws IH]; [ simpl; lia | ].
  rewrite fmap_cons. cbn [foldr]. rewrite IH. lia.
Qed.

Lemma columns_snoc (rws : list (list Z)) (ws : list Z) :
  columns (rws ++ [ws]) = Nat.max (columns rws) (length ws).
Proof.
  unfold columns. rewrite fmap_app, foldr_app. simpl.
  rewrite Nat.max_0_r. induction rws as [|ws' rws IH]; [ simpl; lia | ].
  rewrite fmap_cons. cbn [foldr]. rewrite IH. lia.
Qed.

Lemma maxAt_beyond (rws : list (list Z)) (i : nat) :
  (columns rws <= i)%nat -> maxAt rws i = 0.
Proof.
  unfold columns, maxAt. induction rws as [|ws rws IH]; [ done | ].
  rewrite !fmap_cons. cbn [foldr]. intros Hi.
  rewrite IH by lia. rewrite nth_overflow by lia. done.
Qed.

Lemma columnMaxima_lookup (rws : list (list Z)) (i : nat) :
  columnMaxima rws !! i =
  if decide (i < columns rws)%nat then Some (maxAt rws i) else None.
Proof.
  unfold columnMaxima. rewrite list_lookup_fmap.
  case_decide.
  - by rewrite lookup_seq_lt.
  - by rewrite lookup_seq_ge by lia.
Qed.

Lemma merge_columnMaxima (rws : list (list Z)) (ws : list Z) :
  Forall (Z.le 0) ws ->
  merge (columnMaxima rws) ws = columnMaxima (rws ++ [ws]).
Proof.
  intros Hws. apply list_eq; intros i.
  rewrite merge_lookup, !columnMaxima_lookup, columns_snoc, maxAt_snoc.
  pose proof (maxAt_nonneg rws i) as Hm.
  destruct (ws !! i) as [w|] eqn:Hw.
  - pose proof (lookup_lt_Some _ _ _ Hw) as Hlt.
    assert (0 <= w) as Hw0.
    { rewrite Forall_forall in Hws. apply Hws.
      eapply list_elem_of_lookup_2; eauto. }
    rewrite (nth_lookup_Some _ _ _ _ Hw).
    rewrite (decide_True (P := (i < Nat.max _ _)%nat)) by lia.
    f_equal. case_decide; simpl.
    + destruct (maxAt rws i =? 0) eqn:E; lia.
    + rewrite maxAt_beyond by lia. lia.
  - apply lookup_ge_None_1 in Hw. rewrite nth_overflow by lia.
    repeat case_decide; try lia; f_equal; lia.
Qed.

Lemma sumZ_snoc (l : list Z) (x : Z) : sumZ (l ++ [x]) = sumZ l + x.
Proof. unfold sumZ. induction l as [|y l IH]; simpl; lia. Qed.

Lemma arr_sum_of_list (l : list Z) : arr_sum (arr_of_list l) = Num (sumZ l).
Proof.
  unfold arr_sum. simpl.
  assert (forall n, (n <= length l)%nat ->
            fold_left (add_elem (arr_of_list l)) (seqZ 0 (Z.of_nat n)) (Num 0)
            = Num (sumZ (take n l))) as H.
  { induction n as [|n IH]; intros Hn; [ done | ].
    rewrite seqZ_S, fold_left_app, IH by lia. simpl.
    destruct (lookup_lt_is_Some_2 l n) as [x Hx]; [ lia | ].
    unfold add_elem. rewrite arr_get_of_list, decide_True by lia.
    rewrite Z.add_0_l, Nat2Z.id, Hx. simpl.
    by rewrite (take_S_r _ _ _ Hx), sumZ_snoc. }
  rewrite H by done. by rewrite firstn_all.
Qed.

(** ** One row *)

Section RowLemmas.

Variable StringToNumber : string -> jsnum.

Ltac by_component c :=
  destruct c as [ty wd vs]; destruct ty; simpl.

Lemma count_right (cs : list (option element)) (l c : Z) :
  fold_left count_step cs (Counts l c AlignRight) =
  Counts l (c + Z.of_nat (plotCount cs)) AlignRight.
Proof.
  revert c. induction cs as [|[e|] cs IH]; intros c; simpl.
  - f_equal; lia.
  - by_component e; rewrite IH; f_equal; lia.
  - rewrite IH. f_equal.
Qed.

Lemma count_left (cs : list (option element)) (l c : Z) :
  fold_left count_step cs (Counts l c AlignLeft) =
  Counts (l + Z.of_nat (length (slotsBefore cs)))
         (c + Z.of_nat (plotCount cs))
         (if decide (plotCount cs = 0%nat) then AlignLeft else AlignRight).
Proof.
  revert l c. induction cs as [|[e|] cs IH]; intros l c; simpl.
  - f_equal; lia.
  - by_component e; rewrite ?IH, ?count_right; simpl; f_equal; lia.
  - rewrite IH. f_equal.
Qed.

Lemma place_right (cs : list (option element)) (p : Z) (L R : jsarray) :
  plotCount cs = 0%nat ->
  fold_left (place_step StringToNumber) cs (Placing AlignRight p (Widths L R)) =
  Placing AlignRight (p + Z.of_nat (length (axisSlots cs)))
    (Widths L (widen_up R p (axisWidth StringToNumber <$> axisSlots cs))).
Proof.
  revert p R. induction cs as [|[e|] cs IH]; intros p R Hc; simpl.
  - f_equal; lia.
  - revert Hc. by_component e; intros Hc; try discriminate;
      rewrite IH by done; simpl; f_equal; lia.
  - by apply IH.
Qed.

Lemma place_left (cs : list (option element)) (p : Z) (L R : jsarray) :
  plotCount cs = 1%nat ->
  fold_left (place_step StringToNumber) cs (Placing AlignLeft p (Widths L R)) =
  Placing AlignRight (Z.of_nat (length (slotsAfter cs)))
    (Widths (widen_down L p (axisWidth StringToNumber <$> slotsBefore cs))
            (widen_up R 0 (axisWidth StringToNumber <$> slotsAfter cs))).
Proof.
  revert p L. induction cs as [|[e|] cs IH]; intros p L Hc; simpl.
  - discriminate.
  - revert Hc. by_component e; intros Hc;
      rewrite ?IH by done; try done.
    rewrite place_right by lia. f_equal.
  - by apply IH.
Qed.

(** The width the code gives a slot is its declared width with the
    default taken for 0 as well. *)
Lemma slotWidth_axisWidth (c : element) :
  slotWidth StringToNumber c = axisWidth StringToNumber c.
Proof.
  unfold slotWidth, declaredWidth, axisWidth, num_or.
  destruct (slotVisible c); simpl; [ | done ].
  destruct (Number StringToNumber (ewidth c)) as [z|]; [ | done ].
  by destruct (z =? 0).
Qed.

Lemma slotWidths_axisWidths (cs : list element) :
  slotWidth StringToNumber <$> cs = axisWidth StringToNumber <$> cs.
Proof. apply list_fmap_ext. intros _ c _. apply slotWidth_axisWidth. Qed.

Lemma layoutRow_of_list (r : rowElement) (l rr : list Z) :
  rtype r = ChartRow -> plotCount (rchildren r) = 1%nat ->
  layoutRow StringToNumber (Widths (arr_of_list l) (arr_of_list rr)) r =
  Ok (Widths (arr_of_list (merge l (leftSlotWidths StringToNumber r)))
             (arr_of_list (merge rr (rightSlotWidths StringToNumber r)))).
Proof.
  intros Hty Hc. unfold layoutRow. rewrite Hty. simpl.
  rewrite count_left, Hc. simpl.
  rewrite place_left by done. simpl. f_equal.
  unfold leftSlotWidths, rightSlotWidths. rewrite !slotWidths_axisWidths.
  rewrite <- widen_down_of_list, <- widen_up_of_list, length_fmap.
  by rewrite Z.add_0_l.
Qed.

Lemma layoutRow_throws (r : rowElement) (w : widths) :
  rtype r = ChartRow -> plotCount (rchildren r) <> 1%nat ->
  layoutRow StringToNumber w r = Throw (InvariantViolation invariant_msg).
Proof.
  intros Hty Hc. unfold layoutRow. rewrite Hty. simpl.
  rewrite count_left. cbn [countCharts]. rewrite Z.add_0_l.
  destruct (Z.of_nat (plotCount (rchildren r)) =? 1) eqn:E; [ lia | done ].
Qed.

Lemma layoutRow_skip (r : rowElement) (w : widths) :
  rtype r <> ChartRow -> layoutRow StringToNumber w r = Ok w.
Proof.
  intros Hty. unfold layoutRow, areComponentsEqual.
  by rewrite bool_decide_eq_false_2.
Qed.

Lemma layoutRows_columnMaxima (rows done : list rowElement) :
  rows_valid rows -> widths_nonneg StringToNumber rows ->
  layoutRows StringToNumber rows
    (Widths (arr_of_list (columnMaxima (leftSlotWidths StringToNumber <$> done)))
            (arr_of_list (columnMaxima (rightSlotWidths StringToNumber <$> done))))
  = Ok (Widths
          (arr_of_list (columnMaxima
             (leftSlotWidths StringToNumber <$> (done ++ chartRowsOf rows))))
          (arr_of_list (columnMaxima
             (rightSlotWidths StringToNumber <$> (done ++ chartRowsOf rows))))).
Proof.
  unfold rows_valid, widths_nonneg, chartRowsOf.
  revert done. induction rows as [|r rows IH]; intros done Hv Hn; simpl.
  - by rewrite app_nil_r.
  - destruct (decide (rtype r = ChartRow)) as [Hty|Hty].
    + rewrite filter_cons_True in Hv, Hn |- * by done.
      inversion Hv as [|? ? Hv1 Hv2]; inversion Hn as [|? ? [Hl Hr] Hn2]; subst.
      rewrite layoutRow_of_list by done. simpl.
      rewrite !merge_columnMaxima by done.
      specialize (IH (done ++ [r]) Hv2 Hn2).
      rewrite !fmap_app, <- !app_assoc in IH. simpl in IH.
      by rewrite IH, !fmap_app.
    + rewrite filter_cons_False in Hv, Hn |- * by done.
      rewrite layoutRow_skip by done. simpl. by apply IH.
Qed.

End RowLemmas.

(** ** The widths of the columns *)

Lemma maxAt_perm (rws rws' : list (list Z)) (i : nat) :
  rws ≡ₚ rws' -> maxAt rws i = maxAt rws' i.
Proof.
  unfold maxAt. induction 1 as [|ws l l' _ IH|ws ws' l|l l' l'' _ IH1 _ IH2].
  - done.
  - rewrite !fmap_cons. cbn [foldr]. by rewrite IH.
  - rewrite !fmap_cons. cbn [foldr]. lia.
  - by rewrite IH1.
Qed.

Lemma columns_perm (rws rws' : list (list Z)) :
  rws ≡ₚ rws' -> columns rws = columns rws'.
Proof.
  unfold columns. induction 1 as [|ws l l' _ IH|ws ws' l|l l' l'' _ IH1 _ IH2].
  - done.
  - rewrite !fmap_cons. cbn [foldr]. by rewrite IH.
  - rewrite !fmap_cons. cbn [foldr]. lia.
  - by rewrite IH1.
Qed.

Lemma columnMaxima_perm (rws rws' : list (list Z)) :
  rws ≡ₚ rws' -> columnMaxima rws = columnMaxima rws'.
Proof.
  intros Hp. unfold columnMaxima. rewrite (columns_perm _ _ Hp).
  apply list_fmap_ext. intros _ i _. by apply maxAt_perm.
Qed.

Section WidthTheorems.

Variable StringToNumber : string -> jsnum.

Abbreviation leftOf rows := (leftSlotWidths StringToNumber <$> chartRowsOf rows).
Abbreviation rightOf rows := (rightSlotWidths StringToNumber <$> chartRowsOf rows).

Lemma computeAxisWidths_columnMaxima (rows : list rowElement) :
  rows_valid rows -> widths_nonneg StringToNumber rows ->
  computeAxisWidths StringToNumber rows =
  Ok (Widths (arr_of_list (columnMaxima (leftOf rows)))
             (arr_of_list (columnMaxima (rightOf rows)))).
Proof.
  intros Hv Hn. unfold computeAxisWidths.
  apply (layoutRows_columnMaxima StringToNumber rows [] Hv Hn).
Qed.

(** C1, as the code has it.  For rows with exactly one plot slot each and
    slot widths that are not negative, the computed arrays hold, at each
    distance [pos] from the plot, the maximum over the rows of the slot
    width at [pos] (0 for a row without a slot there); the width of a slot
    is 0 when the slot is not visible and otherwise its declared width,
    with the default 40 for a declared width of 0 as for none.  The totals
    are the sums of these maxima.  The rows
    [leftAxis(40), plot, rightAxis(30)] and
    [leftAxis(25), leftAxis(40), plot] give [40, 25] and [30], totals 65
    and 30. *)
Theorem axis_widths_column_maxima (rows : list rowElement) :
  rows_valid rows -> widths_nonneg StringToNumber rows ->
  (exists w,
     computeAxisWidths StringToNumber rows = Ok w
     /\ leftAxisWidths w = arr_of_list (columnMaxima (leftOf rows))
     /\ rightAxisWidths w = arr_of_list (columnMaxima (rightOf rows))
     /\ (forall pos, (pos < columns (leftOf rows))%nat ->
           arr_get (leftAxisWidths w) (Z.of_nat pos)
           = Some (maxAt (leftOf rows) pos))
     /\ (forall pos, (pos < columns (rightOf rows))%nat ->
           arr_get (rightAxisWidths w) (Z.of_nat pos)
           = Some (maxAt (rightOf rows) pos))
     /\ alen (leftAxisWidths w) = Z.of_nat (columns (leftOf rows))
     /\ alen (rightAxisWidths w) = Z.of_nat (columns (rightOf rows))
     /\ arr_sum (leftAxisWidths w) = Num (sumZ (columnMaxima (leftOf rows)))
     /\ arr_sum (rightAxisWidths w) = Num (sumZ (columnMaxima (rightOf rows))))
  /\ (exists w,
        computeAxisWidths StringToNumber exampleRows = Ok w
        /\ leftAxisWidths w = arr_of_list [40; 25]
        /\ rightAxisWidths w = arr_of_list [30]
        /\ arr_sum (leftAxisWidths w) = Num 65
        /\ arr_sum (rightAxisWidths w) = Num 30).
Proof.
  intros Hv Hn. split.
  - eexists. split; [ by apply computeAxisWidths_columnMaxima | ]. simpl.
    assert (forall rws pos, (pos < columns rws)%nat ->
              arr_get (arr_of_list (columnMaxima rws)) (Z.of_nat pos)
              = Some (maxAt rws pos)) as Hget.
    { intros rws pos Hpos.
      rewrite arr_get_of_list, decide_True, Nat2Z.id by lia.
      by rewrite columnMaxima_lookup, decide_True. }
    assert (forall rws, length (columnMaxima rws) = columns rws) as Hlen.
    { intros rws. unfold columnMaxima. by rewrite length_fmap, length_seq. }
    rewrite !arr_sum_of_list, !Hlen. repeat split; auto.
  - eexists. split; [ vm_compute; reflexivity | ].
    repeat split; vm_compute; reflexivity.
Qed.

(** X17.  For rows with exactly one plot slot each and slot widths that
    are not negative, any reordering of the rows gives the same two arrays
    of column widths, hence the same totals. *)
Theorem axis_widths_row_order (rows rows' : list rowElement) :
  rows ≡ₚ rows' ->
  rows_valid rows -> widths_nonneg StringToNumber rows ->
  exists w,
    computeAxisWidths StringToNumber rows = Ok w
    /\ computeAxisWidths StringToNumber rows' = Ok w
    /\ arr_sum (leftAxisWidths w) = Num (sumZ (columnMaxima (leftOf rows')))
    /\ arr_sum (rightAxisWidths w) = Num (sumZ (columnMaxima (rightOf rows'))).
Proof.
  intros Hp Hv Hn.
  assert (chartRowsOf rows ≡ₚ chartRowsOf rows') as Hp'.
  { unfold chartRowsOf. by rewrite Hp. }
  assert (rows_valid rows') as Hv'.
  { unfold rows_valid in *. by rewrite <- Hp'. }
  assert (widths_nonneg StringToNumber rows') as Hn'.
  { unfold widths_nonneg in *. by rewrite <- Hp'. }
  eexists. split; [ by apply computeAxisWidths_columnMaxima | ].
  rewrite (computeAxisWidths_columnMaxima rows') by done.
  rewrite (columnMaxima_perm (leftOf rows) (leftOf rows')) by (by rewrite Hp').
  rewrite (columnMaxima_perm (rightOf rows) (rightOf rows')) by (by rewrite Hp').
  simpl. by rewrite !arr_sum_of_list.
Qed.

End WidthTheorems.

(** C7 fails on a negative width.  The two rows of [negativeRows], each
    with one plot slot, give the left column -5 in one order and 0 in the
    other: [a[pos] ? Math.max(width, a[pos]) : width] takes the 0 stored
    for the hidden axis for an empty cell and overwrites it, where
    [Math.max] would have kept it. *)
Theorem negative_width_depends_on_order :
  negativeRows ≡ₚ reverse negativeRows
  /\ rows_valid negativeRows
  /\ computeAxisWidths noNumber negativeRows
     = Ok (Widths (arr_of_list [-5]) (arr_of_list []))
  /\ computeAxisWidths noNumber (reverse negativeRows)
     = Ok (Widths (arr_of_list [0]) (arr_of_list []))
  /\ (forall w w',
        computeAxisWidths noNumber negativeRows = Ok w ->
        computeAxisWidths noNumber (reverse negativeRows) = Ok w' ->
        arr_get (leftAxisWidths w) 0 <> arr_get (leftAxisWidths w') 0
        /\ arr_sum (leftAxisWidths w) <> arr_sum (leftAxisWidths w')).
Proof.
  assert (computeAxisWidths noNumber negativeRows
          = Ok (Widths (arr_of_list [-5]) (arr_of_list []))) as H1
    by (vm_compute; reflexivity).
  assert (computeAxisWidths noNumber (reverse negativeRows)
          = Ok (Widths (arr_of_list [0]) (arr_of_list []))) as H2
    by (vm_compute; reflexivity).
  split; [ apply perm_swap | ].
  split; [ unfold rows_valid; repeat constructor | ].
  split; [ exact H1 | ]. split; [ exact H2 | ].
  intros w w' Hw Hw'. rewrite H1 in Hw. rewrite H2 in Hw'.
  injection Hw as <-. injection Hw' as <-.
  split; vm_compute; discriminate.
Qed.

(** ** Invisible slots and the default width *)

Section SlotTheorems.

Variable StringToNumber : string -> jsnum.


End SlotTheorems.

Lemma contains_spec (tr : TimeRange) (t : Q) :
  contains tr t = true <-> (tbegin tr <= t)%Q /\ (t <= tend tr)%Q.
Proof.
  unfold contains. rewrite andb_true_iff, !Qle_bool_iff. done.
Qed.

(** ** The layout pass as a whole *)

Section RenderTheorems.

Variable StringToNumber : string -> jsnum.
Variable StringParseInt : string -> jsnum.
Variable ExponentParseInt : Z -> jsnum.

Lemma layoutRow_cases (w : widths) (r : rowElement) :
  (exists w', layoutRow StringToNumber w r = Ok w')
  \/ layoutRow StringToNumber w r = Throw (InvariantViolation invariant_msg).
Proof.
  unfold layoutRow. destruct (areComponentsEqual _ _); [ | eauto ].
  destruct (negb _); eauto.
Qed.

Lemma layoutRows_throws (rows : list rowElement) (r : rowElement) (w : widths) :
  r ∈ rows -> rtype r = ChartRow -> plotCount (rchildren r) <> 1%nat ->
  layoutRows StringToNumber rows w = Throw (InvariantViolation invariant_msg).
Proof.
  intros Hin Hty Hc. revert w.
  induction rows as [|r' rows IH]; intros w; [ by apply elem_of_nil in Hin | ].
  simpl. apply elem_of_cons in Hin as [<-|Hin].
  - by rewrite layoutRow_throws.
  - destruct (layoutRow_cases w r') as [[w' ->]| ->]; simpl; [ by apply IH | done ].
Qed.

Lemma layoutRows_total (rows : list rowElement) (w : widths) :
  rows_valid rows -> exists w', layoutRows StringToNumber rows w = Ok w'.
Proof.
  unfold rows_valid, chartRowsOf. revert w.
  induction rows as [|r rows IH]; intros w Hv; simpl; [ eauto | ].
  destruct (decide (rtype r = ChartRow)) as [Hty|Hty].
  - rewrite filter_cons_True in Hv by done.
    inversion Hv as [|? ? Hv1 Hv2]; subst.
    destruct (layoutRow_cases w r) as [[w' ->]|Hthrow]; simpl; [ by apply IH | ].
    exfalso. unfold layoutRow in Hthrow. rewrite Hty in Hthrow. simpl in Hthrow.
    rewrite count_left in Hthrow. cbn [countCharts] in Hthrow.
    rewrite Hv1 in Hthrow. simpl in Hthrow. discriminate.
  - rewrite filter_cons_False in Hv by done.
    rewrite layoutRow_skip by done. simpl. by apply IH.
Qed.

Lemma layoutRows_of_list (rows : list rowElement) (l r : list Z) :
  rows_valid rows ->
  exists l' r',
    layoutRows StringToNumber rows (Widths (arr_of_list l) (arr_of_list r))
    = Ok (Widths (arr_of_list l') (arr_of_list r')).
Proof.
  unfold rows_valid, chartRowsOf. revert l r.
  induction rows as [|row rows IH]; intros l r Hv; simpl; [ eauto | ].
  destruct (decide (rtype row = ChartRow)) as [Hty|Hty].
  - rewrite filter_cons_True in Hv by done.
    inversion Hv as [|? ? Hv1 Hv2]; subst.
    rewrite layoutRow_of_list by done. simpl. by apply IH.
  - rewrite filter_cons_False in Hv by done.
    rewrite layoutRow_skip by done. simpl. by apply IH.
Qed.

Lemma layoutRows_Ok_valid (rows : list rowElement) (w w' : widths) :
  layoutRows StringToNumber rows w = Ok w' -> rows_valid rows.
Proof.
  intros Hok. unfold rows_valid, chartRowsOf.
  apply Forall_forall. intros r Hr.
  apply list_elem_of_filter in Hr as [Hty Hin].
  destruct (decide (plotCount (rchildren r) = 1%nat)) as [|Hne]; [ done | ].
  rewrite (layoutRows_throws rows r w Hin Hty Hne) in Hok. discriminate.
Qed.

(** A layout pass that succeeds has hole-free arrays of widths, so that the
    two totals are numbers. *)
Lemma render_widths_numeric (P : Props) (out : rendered) :
  render StringToNumber StringParseInt ExponentParseInt P = Ok out ->
  exists l r,
    oAxisWidths out = Widths (arr_of_list l) (arr_of_list r)
    /\ oLeftWidth out = Num (sumZ l) /\ oRightWidth out = Num (sumZ r).
Proof.
  intros Hr. unfold render, buildTimeScale, computeAxisWidths in Hr.
  destruct (layoutRows _ _ _) as [w|] eqn:Hw; simpl in Hr; [ | discriminate ].
  destruct (layoutRows_of_list (children P) [] []
              (layoutRows_Ok_valid _ _ _ Hw)) as (l & r & Hlr).
  change (arr_of_list []) with arr_empty in Hlr.
  rewrite Hlr in Hw. injection Hw as <-.
  destruct (timeRange P) as [tr|]; simpl in Hr; [ | discriminate ].
  injection Hr as <-. simpl. exists l, r. by rewrite !arr_sum_of_list.
Qed.

(** C2, as the code has it.  A row of the container whose number of plot
    slots is not one makes the whole layout pass fail with the
    configuration error: no row, valid or not, gets a layout. *)
Theorem bad_row_aborts_layout (P : Props) (r : rowElement) :
  r ∈ children P -> rtype r = ChartRow -> plotCount (rchildren r) <> 1%nat ->
  render StringToNumber StringParseInt ExponentParseInt P
  = Throw (InvariantViolation invariant_msg).
Proof.
  intros Hin Hty Hc. unfold render, computeAxisWidths.
  by rewrite (layoutRows_throws _ r).
Qed.

(** C3, as the code has it.  For rows with one plot slot each, building
    the time scale fails exactly when the time range is absent; otherwise
    [render] succeeds and the scale is built over the range as given and
    over the pixel range [0, width - leftWidth - rightWidth - paddings],
    whatever their signs or order. *)
Theorem timescale_fails_only_without_range (P : Props) :
  rows_valid (children P) ->
  exists w,
    computeAxisWidths StringToNumber (children P) = Ok w
    /\ (timeRange P = None <->
        render StringToNumber StringParseInt ExponentParseInt P
        = Throw (InvalidTimerange timerange_msg))
    /\ (forall tr, timeRange P = Some tr ->
         exists out,
           render StringToNumber StringParseInt ExponentParseInt P = Ok out
           /\ oTimeScale out =
              TimeScale (utc P) (tbegin tr, tend tr)
                (0, plotWidth P (arr_sum (leftAxisWidths w))
                                (arr_sum (rightAxisWidths w)))).
Proof.
  intros Hv.
  destruct (layoutRows_total (children P) (Widths arr_empty arr_empty) Hv)
    as [w Hw].
  exists w. split; [ exact Hw | ].
  unfold render, buildTimeScale, computeAxisWidths. rewrite Hw. simpl.
  destruct (timeRange P) as [tr|]; simpl.
  - split; [ split; discriminate | ].
    intros tr' [= <-]. eexists. split; reflexivity.
  - split; [ done | discriminate ].
Qed.

(** C6.  The plot pixel width is the container width minus the left and
    right axis widths minus the left and right paddings, and it is the
    high end of the pixel range of the time scale.  With container width
    800, axis widths 65 and 30 and no padding it is 705, and the scale
    over 0 ms .. 100000 ms sends 50000 ms to pixel 352.5. *)
Theorem plot_pixel_width (P : Props) (out : rendered) :
  render StringToNumber StringParseInt ExponentParseInt P = Ok out ->
  (exists lw rw,
     oLeftWidth out = Num lw /\ oRightWidth out = Num rw
     /\ oChartsWidth out
        = Num (width P - lw - rw - prop_or (paddingLeft P) (padding P)
                                 - prop_or (paddingRight P) (padding P))
     /\ srange (oTimeScale out) = (0, oChartsWidth out))
  /\ (exists out',
        render StringToNumber StringParseInt ExponentParseInt scenarioProps
        = Ok out'
        /\ oLeftWidth out' = Num 65 /\ oRightWidth out' = Num 30
        /\ oChartsWidth out' = Num 705
        /\ exists x, scale_apply (oTimeScale out') 50000 = Some x
                     /\ (x == 3525 # 10)%Q).
Proof.
  intros Hr. split.
  - destruct (render_widths_numeric P out Hr) as (l & r & _ & Hl & Hrw).
    exists (sumZ l), (sumZ r). split; [ done | ]. split; [ done | ].
    unfold render, buildTimeScale in Hr.
    destruct (computeAxisWidths _ _) as [w|]; simpl in Hr; [ | discriminate ].
    destruct (timeRange P) as [tr|]; simpl in Hr; [ | discriminate ].
    injection Hr as <-. simpl in *. rewrite Hl, Hrw. done.
  - eexists. split; [ vm_compute; reflexivity | ].
    repeat split. eexists. split; [ vm_compute; reflexivity | ]. reflexivity.
Qed.

(** C10.  The tracker marker is rendered exactly when a tracker position is
    given and the time range contains it; the marker then carries that
    position. *)
Theorem tracker_only_inside_range (P : Props) (out : rendered) :
  render StringToNumber StringParseInt ExponentParseInt P = Ok out ->
  (forall m, oTracker out = Some m ->
     exists t tr, trackerPosition P = Some t /\ timeRange P = Some tr
                  /\ (tbegin tr <= t)%Q /\ (t <= tend tr)%Q /\ mtime m = t)
  /\ (forall t tr, trackerPosition P = Some t -> timeRange P = Some tr ->
        (tbegin tr <= t)%Q -> (t <= tend tr)%Q -> is_Some (oTracker out))
  /\ (trackerPosition P = None -> oTracker out = None)
  /\ (forall t tr, trackerPosition P = Some t -> timeRange P = Some tr ->
        ~ ((tbegin tr <= t)%Q /\ (t <= tend tr)%Q) -> oTracker out = None).
Proof.
  intros Hr. unfold render, buildTimeScale in Hr.
  destruct (computeAxisWidths _ _) as [w|]; simpl in Hr; [ | discriminate ].
  destruct (timeRange P) as [tr|]; simpl in Hr; [ | discriminate ].
  injection Hr as <-. simpl.
  destruct (trackerPosition P) as [t|]; simpl.
  - pose proof (contains_spec tr t) as [Hc1 Hc2].
    split; [ | split; [ | split ] ].
    + intros m Hm. exists t, tr.
      destruct (contains tr t); [ | discriminate ].
      injection Hm as <-. destruct (Hc1 eq_refl). done.
    + intros t' tr' [= <-] [= <-] H1 H2. rewrite Hc2 by done. eauto.
    + discriminate.
    + intros t' tr' [= <-] [= <-] Hno.
      destruct (contains tr t); [ | done ]. exfalso. by apply Hno, Hc1.
  - repeat split; done.
Qed.

End RenderTheorems.

(** ** The vertical stacking of the rows *)

Section Stacking.

Variable StringToNumber : string -> jsnum.
Variable StringParseInt : string -> jsnum.
Variable ExponentParseInt : Z -> jsnum.

Lemma fold_stack_step (lw : jsnum) (pl : Z) (rows : list rowElement)
    (i : Z) (y : jsnum) (acc : list renderedRow) :
  fold_left (stack_step StringParseInt ExponentParseInt lw pl) rows
            (Stacking i y acc) =
  Stacking (i + Z.of_nat (length rows))
           (sumHeights StringParseInt ExponentParseInt y (shownRows rows))
           (acc ++ stacked StringParseInt ExponentParseInt lw pl i y rows).
Proof.
  revert i y acc. induction rows as [|r rows IH]; intros i y acc.
  - simpl. rewrite app_nil_r. f_equal. lia.
  - cbn [fold_left stacked]. unfold stack_step at 2, shownRows, rowShown.
    destruct (areComponentsEqual (rtype r) ChartRow) eqn:Hty; simpl;
      [ destruct (truthy (rvisible r)) eqn:Hvis; simpl | ].
    + rewrite filter_cons_True by (unfold rowShown; by rewrite Hty, Hvis).
      rewrite IH. simpl. rewrite <- app_assoc. simpl. f_equal. lia.
    + rewrite filter_cons_False by (unfold rowShown; by rewrite Hty, Hvis).
      rewrite IH. f_equal. lia.
    + rewrite filter_cons_False by (unfold rowShown; by rewrite Hty).
      rewrite IH. f_equal. lia.
Qed.

Lemma stacked_elems (lw : jsnum) (pl : Z) (rows : list rowElement)
    (i : Z) (y : jsnum) :
  relem <$> stacked StringParseInt ExponentParseInt lw pl i y rows
  = shownRows rows.
Proof.
  revert i y. unfold shownRows.
  induction rows as [|r rows IH]; intros i y; simpl; [ done | ].
  destruct (rowShown r) eqn:E.
  - rewrite filter_cons_True by done. simpl. by rewrite IH.
  - rewrite filter_cons_False by (by rewrite E). apply IH.
Qed.

Lemma stacked_lookup (lw : jsnum) (pl : Z) (rows : list rowElement)
    (i : Z) (y : jsnum) (k : nat) (e : renderedRow) :
  stacked StringParseInt ExponentParseInt lw pl i y rows !! k = Some e ->
  ry e = sumHeights StringParseInt ExponentParseInt y (take k (shownRows rows))
  /\ i <= rkey e
  /\ rows !! Z.to_nat (rkey e - i) = Some (relem e)
  /\ rowShown (relem e) = true.
Proof.
  revert i y k. unfold shownRows.
  induction rows as [|r rows IH]; intros i y k; simpl; [ done | ].
  destruct (rowShown r) eqn:E.
  - rewrite filter_cons_True by done.
    destruct k as [|k]; simpl.
    + intros [= <-]. simpl. rewrite Z.sub_diag. repeat split; [ lia | done ].
    + intros Hk. destruct (IH _ _ _ Hk) as (Hy & Hi & Hl & Hs).
      repeat split; [ done | lia | | done ].
      replace (Z.to_nat (rkey e - i)) with (S (Z.to_nat (rkey e - (i + 1))))
        by lia. done.
  - rewrite filter_cons_False by (by rewrite E).
    intros Hk. destruct (IH _ _ _ Hk) as (Hy & Hi & Hl & Hs).
    repeat split; [ done | lia | | done ].
    replace (Z.to_nat (rkey e - i)) with (S (Z.to_nat (rkey e - (i + 1))))
      by lia. done.
Qed.

(** C8, as the code has it.  The rendered rows are the visible rows, in
    declaration order; the vertical offset of each is the sum, from 0, of
    the heights of the visible rows before it, and the total height is the
    sum over all visible rows.  An invisible row takes no vertical space
    and has no entry of its own; it only counts in the index that keys the
    rows after it. *)
Theorem row_offsets_of_visible_rows (P : Props) (out : rendered) :
  render StringToNumber StringParseInt ExponentParseInt P = Ok out ->
  relem <$> oChartRows out = shownRows (children P)
  /\ (forall k e, oChartRows out !! k = Some e ->
        ry e = sumHeights StringParseInt ExponentParseInt (Num 0)
                 (take k (shownRows (children P)))
        /\ 0 <= rkey e
        /\ children P !! Z.to_nat (rkey e) = Some (relem e))
  /\ oChartsHeight out
     = sumHeights StringParseInt ExponentParseInt (Num 0)
         (shownRows (children P)).
Proof.
  intros Hr. unfold render, buildTimeScale in Hr.
  destruct (computeAxisWidths _ _) as [w|]; simpl in Hr; [ | discriminate ].
  destruct (timeRange P) as [tr|]; simpl in Hr; [ | discriminate ].
  injection Hr as <-. simpl. rewrite fold_stack_step. simpl.
  split; [ apply stacked_elems | ]. split; [ | done ].
  intros k e Hk. destruct (stacked_lookup _ _ _ _ _ _ _ Hk) as (Hy & Hi & Hl & _).
  rewrite Z.sub_0_r in Hl. done.
Qed.

End Stacking.

(** ** The time scale as a linear map *)

#[local] Open Scope Q_scope.

Lemma linear_apply_slope (b e w t : Q) :
  linear_apply b e w t == (w / (e - b)) * (t - b).
Proof. unfold linear_apply, Qdiv. ring. Qed.

Lemma slope_nonneg (b e w : Q) : b <= e -> 0 <= w -> 0 <= w / (e - b).
Proof.
  intros Hbe Hw. destruct (Qeq_dec e b) as [Heq|Hne].
  - assert (e - b == 0) as -> by lra. unfold Qdiv. change (/ 0) with 0. lra.
  - apply Qle_shift_div_l; lra.
Qed.

Lemma linear_round_trip (b e w t : Q) :
  b <= e -> 0 < w -> b <= t -> t <= e ->
  linear_invert b e w (linear_apply b e w t) == t.
Proof.
  intros Hbe Hw H1 H2. unfold linear_invert, linear_apply.
  destruct (Qeq_dec e b) as [Heq|Hne].
  - assert (e - b == 0) as -> by lra. unfold Qdiv. change (/ 0) with 0. lra.
  - field. split; lra.
Qed.

Lemma linear_apply_bounds (b e w t : Q) :
  b <= e -> 0 < w -> b <= t -> t <= e ->
  0 <= linear_apply b e w t /\ linear_apply b e w t <= w.
Proof.
  intros Hbe Hw H1 H2. split.
  - rewrite linear_apply_slope.
    pose proof (slope_nonneg b e w Hbe (Qlt_le_weak _ _ Hw)). nra.
  - unfold linear_apply. destruct (Qeq_dec e b) as [Heq|Hne].
    + assert (e - b == 0) as -> by lra. unfold Qdiv. change (/ 0) with 0. lra.
    + apply Qle_shift_div_r; [ lra | nra ].
Qed.

Lemma linear_apply_ends (b e w : Q) :
  b < e -> linear_apply b e w b == 0 /\ linear_apply b e w e == w.
Proof.
  intros Hbe. unfold linear_apply. split; field; lra.
Qed.

Lemma slope_monotone (k b u v : Q) :
  0 <= k -> u <= v -> k * (u - b) <= k * (v - b).
Proof. intros Hk Huv. nra. Qed.

(** The same facts in the form [scale_apply] and [scale_invert] compute
    them, with the low end 0 of the pixel range written out. *)
Lemma scaled_slope (b e W u : Q) :
  0 + linear_apply b e (W - 0) u == W / (e - b) * (u - b).
Proof. unfold linear_apply, Qdiv. ring. Qed.

Lemma scaled_apply (b e W u : Q) :
  0 + linear_apply b e (W - 0) u == linear_apply b e W u.
Proof. unfold linear_apply, Qdiv. ring. Qed.

Lemma scaled_round_trip (b e W t : Q) :
  b <= e -> 0 < W -> b <= t -> t <= e ->
  linear_invert b e (W - 0) (0 + linear_apply b e (W - 0) t - 0) == t.
Proof.
  intros Hbe HW H1 H2.
  rewrite <- (linear_round_trip b e W t Hbe HW H1 H2) at 2.
  unfold linear_invert, linear_apply.
  assert (W - 0 == W) as -> by ring.
  unfold Qdiv. ring.
Qed.

#[local] Close Scope Q_scope.

Section ScaleTheorems.

Variable StringToNumber : string -> jsnum.
Variable StringParseInt : string -> jsnum.
Variable ExponentParseInt : Z -> jsnum.

Lemma render_timeScale (P : Props) (out : rendered) (tr : TimeRange) :
  render StringToNumber StringParseInt ExponentParseInt P = Ok out ->
  timeRange P = Some tr ->
  oTimeScale out = TimeScale (utc P) (tbegin tr, tend tr) (0, oChartsWidth out).
Proof.
  intros Hr Htr. unfold render, buildTimeScale in Hr.
  destruct (computeAxisWidths _ _) as [w|]; simpl in Hr; [ | discriminate ].
  rewrite Htr in Hr. simpl in Hr. by injection Hr as <-.
Qed.

(** C4.  For a time range with begin <= end and a positive plot pixel
    width [w], the time scale built by [render] is linear with a
    non-negative slope, hence monotonic, it sends the instants of the range
    into [[0, w]] (the two ends onto 0 and [w] when begin < end), and
    inverting the pixel of an instant of the range gives the instant
    back. *)
Theorem time_scale_round_trip (P : Props) (out : rendered) (tr : TimeRange)
    (w : Z) (t : Q) :
  render StringToNumber StringParseInt ExponentParseInt P = Ok out ->
  timeRange P = Some tr -> oChartsWidth out = Num w ->
  (tbegin tr <= tend tr)%Q -> 0 < w ->
  (tbegin tr <= t)%Q -> (t <= tend tr)%Q ->
  (exists x,
     scale_apply (oTimeScale out) t = Some x
     /\ (0 <= x)%Q /\ (x <= inject_Z w)%Q
     /\ exists t', scale_invert (oTimeScale out) x = Some t' /\ (t' == t)%Q)
  /\ (exists k, (0 <= k)%Q /\ forall u,
        exists xu, scale_apply (oTimeScale out) u = Some xu
                   /\ (xu == k * (u - tbegin tr))%Q)
  /\ (forall u v xu xv, (u <= v)%Q ->
        scale_apply (oTimeScale out) u = Some xu ->
        scale_apply (oTimeScale out) v = Some xv -> (xu <= xv)%Q)
  /\ ((tbegin tr < tend tr)%Q ->
      exists x0 x1,
        scale_apply (oTimeScale out) (tbegin tr) = Some x0 /\ (x0 == 0)%Q
        /\ scale_apply (oTimeScale out) (tend tr) = Some x1
        /\ (x1 == inject_Z w)%Q).
Proof.
  intros Hr Htr Hw Hbe Hpos H1 H2.
  rewrite (render_timeScale P out tr Hr Htr), Hw.
  unfold scale_apply, scale_invert. simpl.
  assert (0 < inject_Z w)%Q as HwQ.
  { change 0%Q with (inject_Z 0). rewrite <- Zlt_Qlt. done. }
  remember (inject_Z w) as W eqn:HW0. clear HW0.
  pose proof (slope_nonneg (tbegin tr) (tend tr) W Hbe (Qlt_le_weak _ _ HwQ))
    as Hk.
  destruct (linear_apply_bounds (tbegin tr) (tend tr) W t) as [Hlo Hhi];
    try done.
  repeat split.
  - eexists. split; [ reflexivity | ]. rewrite !scaled_apply.
    repeat split; try done.
    eexists. split; [ reflexivity | ].
    by apply scaled_round_trip.
  - exists (W / (tend tr - tbegin tr))%Q. split; [ done | ].
    intros u. eexists. split; [ reflexivity | apply scaled_slope ].
  - intros u v xu xv Huv [= <-] [= <-]. rewrite !scaled_slope.
    by apply slope_monotone.
  - intros Hlt. destruct (linear_apply_ends (tbegin tr) (tend tr) W Hlt)
      as [H0 HW].
    do 2 eexists. split; [ reflexivity | ]. split; [ | split; [ reflexivity | ] ].
    + by rewrite scaled_apply.
    + by rewrite scaled_apply.
Qed.

End ScaleTheorems.

(** ** The statements at concrete containers *)

Lemma exampleRows_valid : rows_valid exampleRows.
Proof. unfold rows_valid. repeat constructor. Defined.

Lemma exampleRows_nonneg : widths_nonneg noNumber exampleRows.
Proof.
  unfold widths_nonneg. repeat first [ constructor | discriminate ].
Defined.

(** C1 does not hold as stated.  A visible axis that declares the width 0
    gets a column of 40, not of 0: [Number(width) || 40] takes the 0 for
    no width at all.  And a column shared by a hidden axis and an axis of
    width -5 is -5 wide when the hidden axis comes first, where the maximum
    of 0 and -5 is 0. *)
Lemma zero_and_negative_widths_miss_maximum :
  (exists w,
     computeAxisWidths noNumber zeroWidthRows = Ok w
     /\ leftAxisWidths w = arr_of_list [40]
     /\ columnMaxima (leftDeclaredWidths noNumber <$> chartRowsOf zeroWidthRows)
        = [0]
     /\ ~ columnsAsSpecified noNumber zeroWidthRows w)
  /\ (exists w,
        computeAxisWidths noNumber negativeRows = Ok w
        /\ leftAxisWidths w = arr_of_list [-5]
        /\ columnMaxima
            (leftDeclaredWidths noNumber <$> chartRowsOf negativeRows)
           = [0]
        /\ ~ columnsAsSpecified noNumber negativeRows w).
Proof.
  split; eexists; (split; [ vm_compute; reflexivity | ]);
    (split; [ reflexivity | ]); (split; [ reflexivity | ]);
    intros [Hl _]; apply (f_equal (fun a => arr_get a 0)) in Hl;
    vm_compute in Hl; discriminate.
Qed.

Lemma axis_widths_column_maxima_witness :
  rows_valid exampleRows /\ widths_nonneg noNumber exampleRows
  /\ exists w,
       computeAxisWidths noNumber exampleRows = Ok w
       /\ leftAxisWidths w
          = arr_of_list (columnMaxima
                           (leftSlotWidths noNumber <$> chartRowsOf exampleRows))
       /\ rightAxisWidths w
          = arr_of_list (columnMaxima
                           (rightSlotWidths noNumber <$> chartRowsOf exampleRows)).
Proof.
  split; [ exact exampleRows_valid | ]. split; [ exact exampleRows_nonneg | ].
  destruct (axis_widths_column_maxima noNumber exampleRows
              exampleRows_valid exampleRows_nonneg)
    as [(w & H1 & H2 & H3 & _) _].
  exists w. auto.
Defined.

Lemma axis_widths_row_order_witness :
  exampleRows ≡ₚ reverse exampleRows
  /\ rows_valid exampleRows /\ widths_nonneg noNumber exampleRows
  /\ exists w,
       computeAxisWidths noNumber exampleRows = Ok w
       /\ computeAxisWidths noNumber (reverse exampleRows) = Ok w.
Proof.
  assert (exampleRows ≡ₚ reverse exampleRows) as Hp by apply perm_swap.
  split; [ exact Hp | ].
  split; [ exact exampleRows_valid | ]. split; [ exact exampleRows_nonneg | ].
  destruct (axis_widths_row_order noNumber exampleRows (reverse exampleRows)
              Hp exampleRows_valid exampleRows_nonneg)
    as (w & H1 & H2 & _).
  exists w. auto.
Defined.


(** C2 does not hold as stated.  A container with a valid row and a row
    with two plot slots gets no layout at all: [render] throws, and the
    valid row is not laid out. *)
Lemma two_plot_row_fails_whole_pass :
  render noNumber noNumber noExponent twoPlotProps
  = Throw (InvariantViolation invariant_msg)
  /\ ~ exists out, render noNumber noNumber noExponent twoPlotProps = Ok out.
Proof.
  assert (render noNumber noNumber noExponent twoPlotProps
          = Throw (InvariantViolation invariant_msg)) as H
    by (vm_compute; reflexivity).
  split; [ exact H | ]. intros [out Hout]. rewrite H in Hout. discriminate.
Qed.

Lemma bad_row_aborts_layout_witness :
  noPlotRow ∈ children noPlotProps /\ rtype noPlotRow = ChartRow
  /\ plotCount (rchildren noPlotRow) <> 1%nat
  /\ render noNumber noNumber noExponent noPlotProps
     = Throw (InvariantViolation invariant_msg).
Proof.
  assert (noPlotRow ∈ children noPlotProps) as H1.
  { apply list_elem_of_further, list_elem_of_here. }
  assert (plotCount (rchildren noPlotRow) <> 1%nat) as H2 by discriminate.
  split; [ exact H1 | ]. split; [ reflexivity | ]. split; [ exact H2 | ].
  exact (bad_row_aborts_layout noNumber noNumber noExponent noPlotProps
           noPlotRow
           H1 eq_refl H2).
Defined.

(** C3 does not hold as stated.  A container 10 pixels wide with a
    40-pixel axis column gets a time scale over the pixel range [0, -30],
    and a time range that ends before it begins gets a scale over that
    domain: no error is raised in either case. *)
Lemma narrow_container_builds_scale :
  (exists out,
     render noNumber noNumber noExponent narrowProps = Ok out
     /\ oChartsWidth out = Num (-30)
     /\ srange (oTimeScale out) = (0, Num (-30)))
  /\ (exists out,
        render noNumber noNumber noExponent reversedProps = Ok out
        /\ sdomain (oTimeScale out) = (100000%Q, 0%Q)).
Proof.
  split; eexists; (split; [ vm_compute; reflexivity | ]);
    repeat split; reflexivity.
Qed.

Lemma narrowProps_valid : rows_valid (children narrowProps).
Proof. unfold rows_valid. repeat constructor. Defined.

Lemma timescale_fails_only_without_range_witness :
  rows_valid (children narrowProps)
  /\ exists out,
       render noNumber noNumber noExponent narrowProps = Ok out
       /\ srange (oTimeScale out) = (0, Num (-30)).
Proof.
  split; [ exact narrowProps_valid | ].
  destruct (timescale_fails_only_without_range noNumber noNumber noExponent
              narrowProps
              narrowProps_valid) as (w & Hw & _ & Hsome).
  destruct (Hsome (MkTimeRange 0 100000) eq_refl) as (out & H1 & H2).
  exists out. split; [ exact H1 | ]. rewrite H2. simpl.
  assert (w = Widths (arr_of_list [40]) (arr_of_list [])) as ->.
  { assert (computeAxisWidths noNumber (children narrowProps)
            = Ok (Widths (arr_of_list [40]) (arr_of_list []))) as Hc
      by (vm_compute; reflexivity).
    rewrite Hc in Hw. by injection Hw as <-. }
  vm_compute. reflexivity.
Defined.

Lemma plot_pixel_width_witness :
  exists out,
    render noNumber noNumber noExponent scenarioProps = Ok out
    /\ exists lw rw,
         oLeftWidth out = Num lw /\ oRightWidth out = Num rw
         /\ oChartsWidth out = Num (800 - lw - rw - 0 - 0).
Proof.
  eexists. split; [ vm_compute; reflexivity | ].
  destruct (proj1 (plot_pixel_width noNumber noNumber noExponent
                     scenarioProps _ eq_refl))
    as (lw & rw & H1 & H2 & H3 & _).
  exists lw, rw. split; [ exact H1 | ]. split; [ exact H2 | exact H3 ].
Defined.

(** C8 does not hold as stated.  Of three rows of heights 100, 50 and 200
    with the second invisible, two are rendered, at offsets 0 and 100 under
    the keys 0 and 2: the invisible row has no entry in the sequence. *)
Lemma hidden_row_has_no_offset :
  exists out,
    render noNumber noNumber noExponent hiddenRowProps = Ok out
    /\ rkey <$> oChartRows out = [0; 2]
    /\ ry <$> oChartRows out = [Num 0; Num 100]
    /\ oChartsHeight out = Num 300
    /\ ~ every_row_has_offset (children hiddenRowProps) out.
Proof.
  eexists. split; [ vm_compute; reflexivity | ].
  repeat split. unfold every_row_has_offset. vm_compute. discriminate.
Qed.

Lemma row_offsets_of_visible_rows_witness :
  exists out,
    render noNumber noNumber noExponent hiddenRowProps = Ok out
    /\ relem <$> oChartRows out = shownRows (children hiddenRowProps)
    /\ oChartsHeight out
       = sumHeights noNumber noExponent (Num 0)
           (shownRows (children hiddenRowProps)).
Proof.
  eexists. split; [ vm_compute; reflexivity | ].
  destruct
      (row_offsets_of_visible_rows noNumber noNumber noExponent hiddenRowProps _
              eq_refl) as (H1 & _ & H3).
  split; [ exact H1 | exact H3 ].
Defined.

Lemma tracker_only_inside_range_witness :
  exists out,
    render noNumber noNumber noExponent trackedProps = Ok out
    /\ is_Some (oTracker out).
Proof.
  eexists. split; [ vm_compute; reflexivity | ].
  apply (proj1 (proj2 (tracker_only_inside_range noNumber noNumber noExponent
                         trackedProps _ eq_refl))
           50000%Q (MkTimeRange 0 100000) eq_refl eq_refl);
    vm_compute; discriminate.
Defined.

Lemma time_scale_round_trip_witness :
  exists out,
    render noNumber noNumber noExponent scenarioProps = Ok out
    /\ oChartsWidth out = Num 705
    /\ (0 <= 100000)%Q /\ 0 < 705 /\ (0 <= 50000)%Q /\ (50000 <= 100000)%Q
    /\ exists x,
         scale_apply (oTimeScale out) 50000 = Some x
         /\ exists t', scale_invert (oTimeScale out) x = Some t'
                       /\ (t' == 50000)%Q.
Proof.
  assert (0 <= 100000)%Q as H1 by (vm_compute; discriminate).
  assert (0 <= 50000)%Q as H2 by (vm_compute; discriminate).
  assert (50000 <= 100000)%Q as H3 by (vm_compute; discriminate).
  eexists. split; [ vm_compute; reflexivity | ].
  split; [ reflexivity | ]. split; [ exact H1 | ]. split; [ reflexivity | ].
  split; [ exact H2 | ]. split; [ exact H3 | ].
  destruct (proj1
      (time_scale_round_trip noNumber noNumber noExponent scenarioProps _
                     (MkTimeRange 0 100000) 705 50000
                     eq_refl eq_refl eq_refl H1 eq_refl H2 H3))
    as (x & Hx & _ & _ & Ht).
  exists x. split; [ exact Hx | exact Ht ].
Defined.

(** * Further properties of the layout *)

(** ** What the widths do not depend on *)

Lemma fold_left_filter_skip {A B : Type} (step : A -> B -> A) (keep : B -> bool)
    (l : list B) (a : A) :
  (forall st b, keep b = false -> step st b = st) ->
  fold_left step (List.filter keep l) a = fold_left step l a.
Proof.
  intros Hskip. revert a. induction l as [|b l IH]; intros a; simpl; [ done | ].
  destruct (keep b) eqn:E; simpl; [ apply IH | ].
  rewrite (Hskip a b E). apply IH.
Qed.

Lemma sumZ_le (l l' : list Z) :
  Forall (Z.le 0) l' ->
  (forall i v, l !! i = Some v -> exists v', l' !! i = Some v' /\ v <= v') ->
  sumZ l <= sumZ l'.
Proof.
  unfold sumZ. revert l'. induction l as [|v l IH]; intros l' Hpos Hle; simpl.
  - clear Hle. induction Hpos; simpl; lia.
  - destruct (Hle 0%nat v eq_refl) as (v' & Hv' & Hvv').
    destruct l' as [|w l']; [ discriminate | ]. simpl in Hv'.
    injection Hv' as ->. inversion Hpos as [|? ? Hw Hpos']; subst. simpl.
    assert (foldr Z.add 0 l <= foldr Z.add 0 l'); [ | lia ].
    apply IH; [ done | ]. intros i u Hu. apply (Hle (S i) u Hu).
Qed.

Lemma columnMaxima_nonneg (rws : list (list Z)) :
  Forall (Z.le 0) (columnMaxima rws).
Proof.
  unfold columnMaxima. apply Forall_fmap, Forall_forall.
  intros i _. apply maxAt_nonneg.
Qed.

Lemma maxAt_ge (rws : list (list Z)) (ws : list Z) (i : nat) :
  ws ∈ rws -> nth i ws 0 <= maxAt rws i.
Proof.
  unfold maxAt. induction 1 as [ws rws|ws ws' rws _ IH];
    rewrite fmap_cons; cbn [foldr]; lia.
Qed.

Lemma columns_ge (rws : list (list Z)) (ws : list Z) :
  ws ∈ rws -> (length ws <= columns rws)%nat.
Proof.
  unfold columns. induction 1 as [ws rws|ws ws' rws _ IH];
    rewrite fmap_cons; cbn [foldr]; lia.
Qed.

Lemma maxAt_app_ge (extra rws : list (list Z)) (i : nat) :
  maxAt rws i <= maxAt (extra ++ rws) i.
Proof.
  unfold maxAt. induction extra as [|ws extra IH]; [ simpl; lia | ].
  change ((ws :: extra) ++ rws) with (ws :: (extra ++ rws)).
  rewrite fmap_cons. cbn [foldr]. lia.
Qed.

Lemma columns_app_ge (extra rws : list (list Z)) :
  (columns rws <= columns (extra ++ rws))%nat.
Proof.
  unfold columns. induction extra as [|ws extra IH]; [ simpl; lia | ].
  change ((ws :: extra) ++ rws) with (ws :: (extra ++ rws)).
  rewrite fmap_cons. cbn [foldr]. lia.
Qed.

Section WidthProperties.

Variable StringToNumber : string -> jsnum.

Lemma layoutRow_stripRow (w : widths) (r : rowElement) :
  layoutRow StringToNumber w (stripRow r) = layoutRow StringToNumber w r.
Proof.
  unfold layoutRow, stripRow. simpl.
  assert (forall st c, keepsChild c = false -> count_step st c = st) as Hc.
  { intros st [[ty wd vs]|] Hk; [ | done ].
    destruct ty; simpl in *; try discriminate; done. }
  assert (forall st c, keepsChild c = false ->
                       place_step StringToNumber st c = st) as Hp.
  { intros st [[ty wd vs]|] Hk; [ | done ].
    destruct ty; simpl in *; try discriminate; done. }
  by rewrite (fold_left_filter_skip _ _ _ _ Hc),
             (fold_left_filter_skip _ _ _ _ Hp).
Qed.

(** X1.  The [null] children and the brushes of a row take no part in the
    widths: without them the computation gives the same arrays, or the
    same error. *)
Theorem brushes_take_no_column (rows : list rowElement) :
  computeAxisWidths StringToNumber (stripRow <$> rows)
  = computeAxisWidths StringToNumber rows.
Proof.
  unfold computeAxisWidths. generalize (Widths arr_empty arr_empty).
  induction rows as [|r rows IH]; intros w; simpl; [ done | ].
  rewrite layoutRow_stripRow.
  destruct (layoutRow StringToNumber w r); simpl; [ apply IH | done ].
Qed.

(** X2.  The children of the container that are not [ChartRow]s take no
    part in the widths either. *)
Theorem only_chart_rows_count (rows : list rowElement) :
  computeAxisWidths StringToNumber (chartRowsOf rows)
  = computeAxisWidths StringToNumber rows.
Proof.
  unfold computeAxisWidths, chartRowsOf. generalize (Widths arr_empty arr_empty).
  induction rows as [|r rows IH]; intros w; simpl; [ done | ].
  destruct (decide (rtype r = ChartRow)) as [Hty|Hty].
  - rewrite filter_cons_True by done. simpl.
    destruct (layoutRow StringToNumber w r); simpl; [ apply IH | done ].
  - rewrite filter_cons_False by done.
    rewrite layoutRow_skip by done. simpl. apply IH.
Qed.

(** X3.  The columns hold every row: for rows with one plot slot each and
    non-negative slot widths, a slot of a row is never wider than its
    column, and the axes of a row never take more than the total width of
    their side. *)
Theorem columns_hold_every_row (rows : list rowElement) (w : widths)
    (r : rowElement) :
  rows_valid rows -> widths_nonneg StringToNumber rows ->
  computeAxisWidths StringToNumber rows = Ok w ->
  r ∈ chartRowsOf rows ->
  (forall pos v, leftSlotWidths StringToNumber r !! pos = Some v ->
     exists c, arr_get (leftAxisWidths w) (Z.of_nat pos) = Some c /\ v <= c)
  /\ (forall pos v, rightSlotWidths StringToNumber r !! pos = Some v ->
        exists c, arr_get (rightAxisWidths w) (Z.of_nat pos) = Some c /\ v <= c)
  /\ (exists lw rw,
        arr_sum (leftAxisWidths w) = Num lw
        /\ arr_sum (rightAxisWidths w) = Num rw
        /\ sumZ (leftSlotWidths StringToNumber r) <= lw
        /\ sumZ (rightSlotWidths StringToNumber r) <= rw).
Proof.
  intros Hv Hn Hw Hr.
  rewrite computeAxisWidths_columnMaxima in Hw by done. injection Hw as <-.
  simpl.
  assert (forall (f : rowElement -> list Z) pos v,
            f r !! pos = Some v ->
            exists c, columnMaxima (f <$> chartRowsOf rows) !! pos = Some c
                      /\ v <= c) as Hcol.
  { intros f pos v Hpos.
    assert (f r ∈ f <$> chartRowsOf rows) as Hin by (by apply list_elem_of_fmap_2).
    exists (maxAt (f <$> chartRowsOf rows) pos).
    rewrite columnMaxima_lookup, decide_True.
    - split; [ done | ].
      rewrite <- (nth_lookup_Some _ _ 0 _ Hpos). by apply maxAt_ge.
    - pose proof (columns_ge _ _ Hin). apply lookup_lt_Some in Hpos. lia. }
  assert (forall (f : rowElement -> list Z) pos v,
            f r !! pos = Some v ->
            exists c, arr_get (arr_of_list (columnMaxima (f <$> chartRowsOf rows)))
                              (Z.of_nat pos) = Some c /\ v <= c) as Hget.
  { intros f pos v Hpos. destruct (Hcol f pos v Hpos) as (c & Hc & Hle).
    exists c. by rewrite arr_get_of_list, decide_True, Nat2Z.id by lia. }
  split; [ apply Hget | ]. split; [ apply Hget | ].
  do 2 eexists. rewrite !arr_sum_of_list.
  split; [ done | ]. split; [ done | ].
  split; (apply sumZ_le; [ apply columnMaxima_nonneg | apply Hcol ]).
Qed.

(** X4.  Rows that join the container never narrow a column: for rows
    with one plot slot each and non-negative slot widths, every column of
    the smaller container is found, at least as wide, in the larger one,
    and the two totals do not decrease. *)
Theorem more_rows_never_narrow (rows extra rows' : list rowElement)
    (w w' : widths) :
  rows' ≡ₚ extra ++ rows ->
  rows_valid rows' -> widths_nonneg StringToNumber rows' ->
  computeAxisWidths StringToNumber rows = Ok w ->
  computeAxisWidths StringToNumber rows' = Ok w' ->
  (forall pos c, arr_get (leftAxisWidths w) pos = Some c ->
     exists c', arr_get (leftAxisWidths w') pos = Some c' /\ c <= c')
  /\ (forall pos c, arr_get (rightAxisWidths w) pos = Some c ->
        exists c', arr_get (rightAxisWidths w') pos = Some c' /\ c <= c')
  /\ (exists lw rw lw' rw',
        arr_sum (leftAxisWidths w) = Num lw
        /\ arr_sum (rightAxisWidths w) = Num rw
        /\ arr_sum (leftAxisWidths w') = Num lw'
        /\ arr_sum (rightAxisWidths w') = Num rw'
        /\ lw <= lw' /\ rw <= rw').
Proof.
  intros Hp Hv' Hn' Hw Hw'.
  assert (chartRowsOf rows' ≡ₚ chartRowsOf extra ++ chartRowsOf rows) as Hp'.
  { unfold chartRowsOf. by rewrite Hp, filter_app. }
  assert (rows_valid rows) as Hv.
  { unfold rows_valid in *. rewrite Hp' in Hv'.
    by apply Forall_app in Hv' as [_ ?]. }
  assert (widths_nonneg StringToNumber rows) as Hn.
  { unfold widths_nonneg in *. rewrite Hp' in Hn'.
    by apply Forall_app in Hn' as [_ ?]. }
  rewrite computeAxisWidths_columnMaxima in Hw, Hw' by done.
  injection Hw as <-. injection Hw' as <-. simpl.
  assert (forall (f : rowElement -> list Z) pos c,
            columnMaxima (f <$> chartRowsOf rows) !! pos = Some c ->
            exists c', columnMaxima (f <$> chartRowsOf rows') !! pos = Some c'
                       /\ c <= c') as Hcol.
  { intros f pos c.
    rewrite (columnMaxima_perm (f <$> chartRowsOf rows')
               (f <$> (chartRowsOf extra ++ chartRowsOf rows)))
      by (by rewrite Hp').
    rewrite fmap_app, !columnMaxima_lookup.
    pose proof (columns_app_ge (f <$> chartRowsOf extra) (f <$> chartRowsOf rows)).
    pose proof (maxAt_app_ge (f <$> chartRowsOf extra)
                  (f <$> chartRowsOf rows) pos).
    case_decide; [ | discriminate ]. intros [= <-].
    rewrite decide_True by lia. eauto. }
  assert (forall (f : rowElement -> list Z) pos c,
            arr_get (arr_of_list (columnMaxima (f <$> chartRowsOf rows))) pos
            = Some c ->
            exists c', arr_get (arr_of_list
                                  (columnMaxima (f <$> chartRowsOf rows'))) pos
                       = Some c' /\ c <= c') as Hget.
  { intros f pos c. rewrite !arr_get_of_list.
    case_decide; [ apply Hcol | discriminate ]. }
  split; [ apply Hget | ]. split; [ apply Hget | ].
  do 4 eexists. rewrite !arr_sum_of_list.
  repeat (split; [ done | ]).
  split; (apply sumZ_le; [ apply columnMaxima_nonneg | apply Hcol ]).
Qed.

(** X6.  A visible slot never has width 0: a declared width of 0 (or
    [null], [false], a string that converts to 0) gives way to the default
    40, so that the width is 0 exactly for the slots that are not
    visible. *)
Theorem zero_width_means_invisible (c : element) :
  (axisWidth StringToNumber c = 0 <-> slotVisible c = false)
  /\ (slotVisible c = true ->
      Number StringToNumber (ewidth c) = Num 0 ->
      axisWidth StringToNumber c = 40).
Proof.
  unfold axisWidth. destruct (slotVisible c); simpl.
  - split.
    + split; [ | discriminate ].
      unfold num_or. destruct (Number _ _) as [z|]; [ | discriminate ].
      destruct (z =? 0) eqn:E; [ discriminate | lia ].
    + intros _ ->. reflexivity.
  - split; [ done | discriminate ].
Qed.

End WidthProperties.

(** ** The outcome of a layout pass *)

Section RenderProperties.

Variable StringToNumber : string -> jsnum.
Variable StringParseInt : string -> jsnum.
Variable ExponentParseInt : Z -> jsnum.

Abbreviation render' := (render StringToNumber StringParseInt ExponentParseInt).

Lemma render_Ok_intro (P : Props) (w : widths) (tr : TimeRange) :
  computeAxisWidths StringToNumber (children P) = Ok w ->
  timeRange P = Some tr ->
  render' P = Ok (renderedOf StringParseInt ExponentParseInt P w tr).
Proof.
  intros Hw Htr. unfold render, buildTimeScale, renderedOf, trackerOf.
  rewrite Hw, Htr. simpl. rewrite fold_stack_step. simpl.
  by destruct (trackerPosition P).
Qed.

Lemma render_Ok_inv (P : Props) (out : rendered) :
  render' P = Ok out ->
  exists w tr,
    computeAxisWidths StringToNumber (children P) = Ok w
    /\ timeRange P = Some tr
    /\ out = renderedOf StringParseInt ExponentParseInt P w tr.
Proof.
  intros Hr.
  destruct (computeAxisWidths StringToNumber (children P)) as [w|e] eqn:Hw.
  - destruct (timeRange P) as [tr|] eqn:Htr.
    + rewrite (render_Ok_intro P w tr Hw Htr) in Hr. injection Hr as <-. eauto.
    + unfold render, buildTimeScale in Hr. rewrite Hw, Htr in Hr. discriminate.
  - unfold render in Hr. rewrite Hw in Hr. discriminate.
Qed.

Lemma layoutRows_Throw_inv (rows : list rowElement) (w : widths) (e : error) :
  layoutRows StringToNumber rows w = Throw e ->
  e = InvariantViolation invariant_msg.
Proof.
  revert w. induction rows as [|r rows IH]; intros w; simpl; [ discriminate | ].
  destruct (layoutRow_cases StringToNumber w r) as [[w' ->]| ->]; simpl.
  - apply IH.
  - by intros [= <-].
Qed.

(** X5.  The arrays of widths of a computation that succeeds have no
    holes: every index below [length] is filled and none is outside, so
    that [_.reduce] adds a width at every index and never [undefined]; the
    widths being finite, the two totals are numbers, not [NaN]. *)
Theorem widths_have_no_holes (rows : list rowElement) (w : widths) :
  computeAxisWidths StringToNumber rows = Ok w ->
  (forall i, is_Some (arr_get (leftAxisWidths w) i)
             <-> 0 <= i < alen (leftAxisWidths w))
  /\ (forall i, is_Some (arr_get (rightAxisWidths w) i)
                <-> 0 <= i < alen (rightAxisWidths w))
  /\ (exists lw rw, arr_sum (leftAxisWidths w) = Num lw
                    /\ arr_sum (rightAxisWidths w) = Num rw).
Proof.
  intros Hw. unfold computeAxisWidths in Hw.
  destruct (layoutRows_of_list StringToNumber rows [] []
              (layoutRows_Ok_valid StringToNumber _ _ _ Hw)) as (l & r & Hlr).
  change (arr_of_list []) with arr_empty in Hlr.
  rewrite Hlr in Hw. injection Hw as <-. simpl.
  assert (forall (xs : list Z) i,
            is_Some (arr_get (arr_of_list xs) i)
            <-> 0 <= i < Z.of_nat (length xs)) as Hfill.
  { intros xs i. rewrite arr_get_of_list. case_decide.
    - rewrite lookup_lt_is_Some. lia.
    - split; [ intros [? ?]; discriminate | lia ]. }
  split; [ apply Hfill | ]. split; [ apply Hfill | ].
  do 2 eexists. by rewrite !arr_sum_of_list.
Qed.












Lemma layoutRows_no_chart_rows (rows : list rowElement) (w : widths) :
  chartRowsOf rows = [] -> layoutRows StringToNumber rows w = Ok w.
Proof.
  unfold chartRowsOf. induction rows as [|r rows IH]; intros Hnone; [ done | ].
  destruct (decide (rtype r = ChartRow)) as [Hty|Hty].
  - by rewrite filter_cons_True in Hnone.
  - rewrite filter_cons_False in Hnone by done. simpl.
    rewrite layoutRow_skip by done. simpl. by apply IH.
Qed.

Lemma shownRows_no_chart_rows (rows : list rowElement) :
  chartRowsOf rows = [] -> shownRows rows = [].
Proof.
  unfold chartRowsOf, shownRows.
  induction rows as [|r rows IH]; intros Hnone; [ done | ].
  destruct (decide (rtype r = ChartRow)) as [Hty|Hty].
  - by rewrite filter_cons_True in Hnone.
  - rewrite filter_cons_False in Hnone by done.
    rewrite filter_cons_False; [ by apply IH | ].
    unfold rowShown, areComponentsEqual.
    by rewrite bool_decide_eq_false_2.
Qed.

(** X8.  A container without any [ChartRow], with a time range: the pass
    succeeds with no row, both axis totals 0, the whole width less the
    paddings for the plot, height 0 for the charts and the height of the
    time axis (35 by default) for the [<svg>]. *)
Theorem container_without_rows (P : Props) (tr : TimeRange) :
  chartRowsOf (children P) = [] -> timeRange P = Some tr ->
  exists out,
    render' P = Ok out
    /\ oChartRows out = []
    /\ oLeftWidth out = Num 0 /\ oRightWidth out = Num 0
    /\ oChartsWidth out
       = Num (width P - prop_or (paddingLeft P) (padding P)
                      - prop_or (paddingRight P) (padding P))
    /\ oChartsHeight out = Num 0
    /\ oSvgHeight out = Num (prop_or (timeAxisHeight P) 35).
Proof.
  intros Hnone Htr.
  pose proof (layoutRows_no_chart_rows (children P)
                (Widths arr_empty arr_empty) Hnone) as Hw.
  pose proof (shownRows_no_chart_rows (children P) Hnone) as Hshown.
  exists (renderedOf StringParseInt ExponentParseInt P
      (Widths arr_empty arr_empty) tr).
  split; [ by apply render_Ok_intro | ].
  unfold renderedOf. simpl. rewrite Hshown. simpl.
  split.
  { rewrite <- (stacked_elems StringParseInt ExponentParseInt (Num 0)
                  (prop_or (paddingLeft P) (padding P)) (children P) 0 (Num 0))
      in Hshown.
    by apply fmap_nil_inv in Hshown. }
  repeat split. unfold plotWidth. simpl. f_equal. lia.
Qed.

End RenderProperties.

(** ** The rendered rows *)

Lemma StronglySorted_lt_NoDup (l : list Z) : StronglySorted Z.lt l -> NoDup l.
Proof.
  induction 1 as [|k l _ IH Hall]; constructor; [ | done ].
  intros Hin. rewrite Forall_forall in Hall. specialize (Hall k Hin). lia.
Qed.

Lemma jsadd_swap (y a b : jsnum) : jsadd (jsadd y a) b = jsadd (jsadd y b) a.
Proof. destruct y, a, b; simpl; try done. f_equal. lia. Qed.

Section RowProperties.

Variable StringToNumber : string -> jsnum.
Variable StringParseInt : string -> jsnum.
Variable ExponentParseInt : Z -> jsnum.

Abbreviation heightOf := (rowHeight StringParseInt ExponentParseInt).
Abbreviation sumFrom := (sumHeights StringParseInt ExponentParseInt).

Lemma stacked_fields (lw : jsnum) (pl : Z) (rows : list rowElement)
    (i : Z) (y : jsnum) :
  Forall (fun e => rtrackerShowTime e = (rkey e =? 0)
                   /\ rx e = jssub (jsneg lw) (Num pl)
                   /\ i <= rkey e < i + Z.of_nat (length rows))
         (stacked StringParseInt ExponentParseInt lw pl i y rows).
Proof.
  revert i y. induction rows as [|r rows IH]; intros i y; simpl; [ done | ].
  assert (forall y', Forall (fun e => rtrackerShowTime e = (rkey e =? 0)
                       /\ rx e = jssub (jsneg lw) (Num pl)
                       /\ i <= rkey e < i + Z.pos (Pos.of_succ_nat (length rows)))
                      (stacked StringParseInt ExponentParseInt lw pl
                          (i + 1) y' rows)) as Htail.
  { intros y'. eapply Forall_impl; [ apply IH | ].
    intros e (? & ? & ?). repeat split; try done; lia. }
  destruct (rowShown r); [ | apply Htail ].
  constructor; [ | apply Htail ]. simpl. repeat split; lia.
Qed.

Lemma stacked_keys_sorted (lw : jsnum) (pl : Z) (rows : list rowElement)
    (i : Z) (y : jsnum) :
  StronglySorted Z.lt
      (rkey <$> stacked StringParseInt ExponentParseInt lw pl i y rows).
Proof.
  revert i y. induction rows as [|r rows IH]; intros i y; simpl;
    [ constructor | ].
  destruct (rowShown r); [ | apply IH ].
  rewrite fmap_cons. constructor; [ apply IH | ]. simpl.
  apply Forall_fmap. eapply Forall_impl; [ apply stacked_fields | ].
  intros e (_ & _ & ?). simpl. lia.
Qed.

Lemma sumHeights_snoc (y : jsnum) (rs : list rowElement) (r : rowElement) :
  sumFrom y (rs ++ [r]) = jsadd (sumFrom y rs) (heightOf r).
Proof. unfold sumHeights. by rewrite fold_left_app. Qed.

Lemma sumHeights_perm (rs rs' : list rowElement) (y : jsnum) :
  rs ≡ₚ rs' -> sumFrom y rs = sumFrom y rs'.
Proof.
  intros Hp. revert y.
  induction Hp as [|r l l' _ IH|r r' l|l l' l'' _ IH1 _ IH2]; intros y; simpl.
  - done.
  - apply IH.
  - unfold sumHeights. simpl. by rewrite jsadd_swap.
  - by rewrite IH1.
Qed.

Lemma sumHeights_nonneg (rs : list rowElement) (a : Z) :
  Forall (fun r => exists h, heightOf r = Num h /\ 0 <= h) rs ->
  exists b, sumFrom (Num a) rs = Num b /\ a <= b.
Proof.
  intros Hall. revert a. induction Hall as [|r rs (h & Hh & Hpos) _ IH];
    intros a; simpl.
  - exists a. split; [ done | lia ].
  - unfold sumHeights. simpl. rewrite Hh. simpl.
    destruct (IH (a + h)) as (b & Hb & Hle). exists b. split; [ done | lia ].
Qed.

Lemma row_keys_sorted_aux (P : Props) (out : rendered) :
  render StringToNumber StringParseInt ExponentParseInt P = Ok out ->
  NoDup (rkey <$> oChartRows out).
Proof.
  intros Hr. destruct (render_Ok_inv _ _ _ _ _ Hr) as (w & tr & _ & _ & ->).
  simpl. apply StronglySorted_lt_NoDup, stacked_keys_sorted.
Qed.

(** X9.  The keys of the rendered rows are the indices of their rows among
    the children: below the number of children, strictly increasing, hence
    all different. *)
Theorem row_keys_increase (P : Props) (out : rendered) :
  render StringToNumber StringParseInt ExponentParseInt P = Ok out ->
  StronglySorted Z.lt (rkey <$> oChartRows out)
  /\ NoDup (rkey <$> oChartRows out)
  /\ Forall (fun e => 0 <= rkey e < Z.of_nat (length (children P)))
            (oChartRows out).
Proof.
  intros Hr. destruct (render_Ok_inv _ _ _ _ _ Hr) as (w & tr & _ & _ & ->).
  simpl.
  pose proof (stacked_keys_sorted (arr_sum (leftAxisWidths w))
                (prop_or (paddingLeft P) (padding P)) (children P) 0 (Num 0))
    as Hs.
  split; [ done | ]. split; [ by apply StronglySorted_lt_NoDup | ].
  eapply Forall_impl; [ apply stacked_fields | ].
  intros e (_ & _ & ?). simpl in *. lia.
Qed.

(** X10.  The tracker time is shown by the rendered row of key 0 and by no
    other: by at most one row, which is the first child of the container;
    when the first child is hidden, or is not a [ChartRow], no row shows
    it. *)
Theorem tracker_time_on_first_child (P : Props) (out : rendered) :
  render StringToNumber StringParseInt ExponentParseInt P = Ok out ->
  (forall e, e ∈ oChartRows out ->
     (rtrackerShowTime e = true <-> rkey e = 0)
     /\ (rtrackerShowTime e = true -> children P !! 0%nat = Some (relem e)))
  /\ (forall j k e e',
        oChartRows out !! j = Some e -> oChartRows out !! k = Some e' ->
        rtrackerShowTime e = true -> rtrackerShowTime e' = true -> j = k)
  /\ (forall r, children P !! 0%nat = Some r -> rowShown r = false ->
        forall e, e ∈ oChartRows out -> rtrackerShowTime e = false).
Proof.
  intros Hr. pose proof (row_keys_sorted_aux P out Hr) as Hnd.
  destruct (render_Ok_inv _ _ _ _ _ Hr) as (w & tr & _ & _ & ->).
  simpl in *.
  set (lw := arr_sum (leftAxisWidths w)) in *.
  set (pl := prop_or (paddingLeft P) (padding P)) in *.
  assert (forall e,
            e ∈ stacked StringParseInt ExponentParseInt lw pl 0 (Num 0)
                  (children P) ->
            (rtrackerShowTime e = true <-> rkey e = 0)
            /\ (rtrackerShowTime e = true ->
                children P !! 0%nat = Some (relem e)
                /\ rowShown (relem e) = true)) as Hfirst.
  { intros e He.
    pose proof (stacked_fields lw pl (children P) 0 (Num 0)) as Hf.
    rewrite Forall_forall in Hf. destruct (Hf e He) as (Hshow & _ & _).
    rewrite Hshow, Z.eqb_eq. split; [ done | ]. intros Hk.
    apply list_elem_of_lookup in He as [k He].
    destruct (stacked_lookup _ _ _ _ _ _ _ _ _ He) as (_ & _ & Hl & Hs).
    rewrite Hk in Hl. done. }
  split; [ | split ].
  - intros e He. destruct (Hfirst e He) as [H1 H2].
    split; [ done | ]. intros Ht. by destruct (H2 Ht).
  - intros j k e e' Hj Hk Ht Ht'.
    destruct (Hfirst e (list_elem_of_lookup_2 _ _ _ Hj)) as [H1 _].
    destruct (Hfirst e' (list_elem_of_lookup_2 _ _ _ Hk)) as [H1' _].
    apply H1 in Ht. apply H1' in Ht'.
    eapply (NoDup_lookup _ j k 0 Hnd).
    + by rewrite list_lookup_fmap, Hj, <- Ht.
    + by rewrite list_lookup_fmap, Hk, <- Ht'.
  - intros r Hr0 Hhid e He. destruct (Hfirst e He) as [_ H2].
    destruct (rtrackerShowTime e); [ | done ].
    destruct (H2 eq_refl) as [Hl Hs]. rewrite Hr0 in Hl.
    injection Hl as ->. congruence.
Qed.

End RowProperties.

(** ** The size of the totals *)

Lemma sumZ_nonneg (l : list Z) : Forall (Z.le 0) l -> 0 <= sumZ l.
Proof. unfold sumZ. induction 1; simpl; lia. Qed.

Lemma sumZ_merge_le (l ws : list Z) :
  Forall (Z.le 0) l -> Forall (Z.le 0) ws ->
  sumZ (merge l ws) <= sumZ l + sumZ ws.
Proof.
  intros Hl. revert ws. induction Hl as [|c l Hc Hl IH]; intros ws Hws.
  - simpl. unfold sumZ. simpl. lia.
  - destruct Hws as [|w ws Hw Hws]; [ unfold sumZ; simpl; lia | ].
    specialize (IH ws Hws). unfold sumZ, widened in *. simpl.
    destruct (c =? 0) eqn:E; lia.
Qed.

Lemma sumZ_columnMaxima_le (rws : list (list Z)) :
  Forall (Forall (Z.le 0)) rws ->
  sumZ (columnMaxima rws) <= sumZ (sumZ <$> rws).
Proof.
  induction rws as [|ws rws IH] using rev_ind; intros Hall; [ done | ].
  apply Forall_app in Hall as [Hrws Hws].
  inversion Hws as [|? ? Hws' _]; subst.
  rewrite <- merge_columnMaxima by done.
  rewrite fmap_app. change (sumZ <$> [ws]) with [sumZ ws].
  rewrite (sumZ_snoc (sumZ <$> rws)).
  pose proof (sumZ_merge_le (columnMaxima rws) ws
                (columnMaxima_nonneg rws) Hws').
  specialize (IH Hrws). lia.
Qed.

Lemma sumZ_fmap_add {A : Type} (f g : A -> Z) (l : list A) :
  sumZ (f <$> l) + sumZ (g <$> l) = sumZ ((fun a => f a + g a) <$> l).
Proof.
  unfold sumZ. induction l as [|a l IH]; [ done | ].
  rewrite !fmap_cons. cbn [foldr]. lia.
Qed.

Section Totals.

Variable StringToNumber : string -> jsnum.

(** The two totals are at least 0 and together at most what the slots of
    all the rows add up to. *)
Lemma totals_bounded (rows : list rowElement) (w : widths) :
  rows_valid rows -> widths_nonneg StringToNumber rows ->
  computeAxisWidths StringToNumber rows = Ok w ->
  exists lw rw,
    arr_sum (leftAxisWidths w) = Num lw /\ arr_sum (rightAxisWidths w) = Num rw
    /\ 0 <= lw /\ 0 <= rw /\ lw + rw <= slotTotal StringToNumber rows.
Proof.
  intros Hv Hn Hw.
  rewrite computeAxisWidths_columnMaxima in Hw by done. injection Hw as <-.
  simpl. rewrite !arr_sum_of_list. do 2 eexists.
  split; [ done | ]. split; [ done | ].
  split; [ apply sumZ_nonneg, columnMaxima_nonneg | ].
  split; [ apply sumZ_nonneg, columnMaxima_nonneg | ].
  unfold widths_nonneg, slotTotal in *.
  pose proof (sumZ_columnMaxima_le
                (leftSlotWidths StringToNumber <$> chartRowsOf rows)) as Hl.
  pose proof (sumZ_columnMaxima_le
                (rightSlotWidths StringToNumber <$> chartRowsOf rows)) as Hr.
  assert (sumZ (sumZ <$> (leftSlotWidths StringToNumber <$> chartRowsOf rows))
          + sumZ (sumZ <$> (rightSlotWidths StringToNumber <$> chartRowsOf rows))
          = sumZ ((fun r => sumZ (leftSlotWidths StringToNumber r)
                            + sumZ (rightSlotWidths StringToNumber r))
                    <$> chartRowsOf rows)) as <-.
  { rewrite <- !list_fmap_compose. apply sumZ_fmap_add. }
  assert (Forall (Forall (Z.le 0))
            (leftSlotWidths StringToNumber <$> chartRowsOf rows)
          /\ Forall (Forall (Z.le 0))
               (rightSlotWidths StringToNumber <$> chartRowsOf rows))
    as [Hln Hrn].
  { split; apply Forall_fmap; eapply Forall_impl; try exact Hn;
      intros r [? ?]; done. }
  specialize (Hl Hln). specialize (Hr Hrn). lia.
Qed.

End Totals.

(** ** The geometry of the chart *)

Section Geometry.

Variable StringToNumber : string -> jsnum.
Variable StringParseInt : string -> jsnum.
Variable ExponentParseInt : Z -> jsnum.

Abbreviation heightOf := (rowHeight StringParseInt ExponentParseInt).
Abbreviation sumFrom := (sumHeights StringParseInt ExponentParseInt).

Lemma render_row_lookup (P : Props) (out : rendered) (k : nat) (e : renderedRow) :
  render StringToNumber StringParseInt ExponentParseInt P = Ok out ->
  oChartRows out !! k = Some e ->
  shownRows (children P) !! k = Some (relem e)
  /\ ry e = sumFrom (Num 0) (take k (shownRows (children P)))
  /\ oChartsHeight out = sumFrom (Num 0) (shownRows (children P)).
Proof.
  intros Hr Hk. destruct (render_Ok_inv _ _ _ _ _ Hr) as (w & tr & _ & _ & ->).
  simpl in *. split; [ | split; [ | done ] ].
  - rewrite <- (stacked_elems StringParseInt ExponentParseInt
                  (arr_sum (leftAxisWidths w))
                  (prop_or (paddingLeft P) (padding P)) (children P) 0 (Num 0)).
    by rewrite list_lookup_fmap, Hk.
  - by destruct (stacked_lookup _ _ _ _ _ _ _ _ _ Hk) as (? & _).
Qed.

(** X11.  The rendered rows are stacked without gap or overlap: the first
    is at offset 0, each next one at the offset of the one before plus its
    height, and the height of the charts is the offset of the last plus
    its height. *)
Theorem rows_stack_without_gap (P : Props) (out : rendered) :
  render StringToNumber StringParseInt ExponentParseInt P = Ok out ->
  (forall e, oChartRows out !! 0%nat = Some e -> ry e = Num 0)
  /\ (forall k e e',
        oChartRows out !! k = Some e -> oChartRows out !! S k = Some e' ->
        ry e' = jsadd (ry e) (heightOf (relem e)))
  /\ (forall e, last (oChartRows out) = Some e ->
        oChartsHeight out = jsadd (ry e) (heightOf (relem e)))
  /\ (oChartRows out = [] -> oChartsHeight out = Num 0).
Proof.
  intros Hr. split; [ | split; [ | split ] ].
  - intros e He. by destruct (render_row_lookup P out 0 e Hr He) as (_ & -> & _).
  - intros k e e' He He'.
    destruct (render_row_lookup P out k e Hr He) as (Hs & -> & _).
    destruct (render_row_lookup P out (S k) e' Hr He') as (_ & -> & _).
    by rewrite (take_S_r _ _ _ Hs), sumHeights_snoc.
  - intros e He. rewrite last_lookup in He.
    destruct (render_row_lookup P out _ e Hr He) as (Hs & -> & ->).
    assert (length (shownRows (children P)) = length (oChartRows out)) as Hlen.
    { destruct (render_Ok_inv _ _ _ _ _ Hr) as (w & tr & _ & _ & ->). simpl.
      rewrite <- (stacked_elems StringParseInt ExponentParseInt
                    (arr_sum (leftAxisWidths w))
                    (prop_or (paddingLeft P) (padding P)) (children P) 0 (Num 0)).
      by rewrite length_fmap. }
    pose proof (lookup_lt_Some _ _ _ He) as Hlt.
    rewrite <- (take_drop_middle _ _ _ Hs) at 1.
    rewrite (drop_ge _ (S _)) by lia.
    by rewrite sumHeights_snoc.
  - intros Hnil. destruct (render_Ok_inv _ _ _ _ _ Hr) as (w & tr & _ & _ & ->).
    simpl in *.
    rewrite <- (stacked_elems StringParseInt ExponentParseInt
                  (arr_sum (leftAxisWidths w))
                  (prop_or (paddingLeft P) (padding P)) (children P) 0 (Num 0)).
    by rewrite Hnil.
Qed.

(** X12.  When the heights of the visible rows are numbers that are not
    negative, every rendered row lies inside the chart area: its offset is
    not negative and its bottom is not below the height of the charts; the
    [<svg>] is higher than the charts by the height of the time axis. *)
Theorem rows_inside_chart_area (P : Props) (out : rendered) :
  Forall (fun r => exists h, heightOf r = Num h /\ 0 <= h)
         (shownRows (children P)) ->
  render StringToNumber StringParseInt ExponentParseInt P = Ok out ->
  exists H,
    oChartsHeight out = Num H /\ 0 <= H
    /\ oSvgHeight out = Num (H + prop_or (timeAxisHeight P) 35)
    /\ forall e, e ∈ oChartRows out ->
         exists y h, ry e = Num y /\ heightOf (relem e) = Num h
                     /\ 0 <= y /\ y + h <= H.
Proof.
  intros Hall Hr.
  destruct (sumHeights_nonneg StringParseInt ExponentParseInt _ 0 Hall) as
      (H & HH & HH0).
  exists H.
  assert (oChartsHeight out = Num H) as Hch.
  { destruct (render_Ok_inv _ _ _ _ _ Hr) as (w & tr & _ & _ & ->). done. }
  split; [ done | ]. split; [ done | ]. split.
  { destruct (render_Ok_inv _ _ _ _ _ Hr) as (w & tr & _ & _ & ->).
    simpl in *. by rewrite Hch. }
  intros e He. apply list_elem_of_lookup in He as [k He].
  destruct (render_row_lookup P out k e Hr He) as (Hs & Hy & _).
  pose proof (take_drop_middle _ _ _ Hs) as Hsplit.
  rewrite <- Hsplit in Hall. apply Forall_app in Hall as [Hbefore Hafter].
  inversion Hafter as [|? ? (h & Hh & Hh0) Hrest]; subst.
  destruct (sumHeights_nonneg StringParseInt ExponentParseInt _ 0 Hbefore) as
      (y & Hyy & Hy0).
  exists y, h. rewrite Hy. split; [ done | ]. split; [ done | ].
  split; [ done | ].
  destruct (sumHeights_nonneg StringParseInt ExponentParseInt _
      (y + h) Hrest) as (b & Hb & Hle).
  assert (Num H = Num b) as [= ->]; [ | done ].
  rewrite <- HH, <- Hsplit. unfold sumHeights in *.
  rewrite fold_left_app. simpl. rewrite Hyy, Hh. done.
Qed.

(** X13.  For slot widths that are not negative and add up to at most 2^50,
    and a container width and paddings between 0 and 2^50, every number of
    the horizontal layout is a safe integer, so that the program computes
    it exactly, and the layout is a partition: across the width of the
    container lie, in this order and without gap, the left padding, the
    left axis columns, the plot, the right axis columns and the right
    padding.  The group of the rows and the tracker start at the plot; each
    row is moved back to the left edge of the [<svg>]; the baseline of the
    time axis runs from the left padding to the right padding. *)
Theorem horizontal_partition (P : Props) (svg : svgElement) :
  let pl := prop_or (paddingLeft P) (padding P) in
  let pr := prop_or (paddingRight P) (padding P) in
  widths_nonneg StringToNumber (children P) ->
  slotTotal StringToNumber (children P) <= pixelBound ->
  0 <= width P <= pixelBound ->
  0 <= pl <= pixelBound -> 0 <= pr <= pixelBound ->
  renderSvg StringToNumber StringParseInt ExponentParseInt P = Ok svg ->
  exists lw cw rw,
    (0 <= lw <= pixelBound /\ 0 <= rw <= pixelBound
     /\ Forall safeInteger
          [ width P - lw; width P - lw - rw; width P - lw - rw - pl; cw;
            - lw - pl; lw + pl; cw + rw ])
    /\ svgWidth svg = width P
    /\ pl + lw + cw + rw + pr = width P
    /\ (forall g, SvgRows g ∈ svgChildren svg ->
          handlerX g = Num (pl + lw)
          /\ handlerWidth g = Num cw
          /\ forall e, e ∈ handlerRows g -> jsadd (handlerX g) (rx e) = Num 0)
    /\ (forall m, SvgTracker m ∈ svgChildren svg ->
          mx m = Num (pl + lw) /\ mwidth m = Num cw)
    /\ (forall a, SvgTimeAxis a ∈ svgChildren svg ->
          jsadd (axisX a) (lineX1 a) = Num pl
          /\ jsadd (axisX a) (lineX2 a) = Num (width P - pr)).
Proof.
  intros pl pr Hn Htotal Hwidth Hpl Hpr. unfold renderSvg. intros Hsvg.
  destruct (render StringToNumber StringParseInt ExponentParseInt P)
    as [out|] eqn:Hr; simpl in Hsvg; [ | discriminate ].
  injection Hsvg as <-.
  destruct (render_Ok_inv _ _ _ _ _ Hr) as (w & tr & Hw & _ & Hout).
  pose proof (layoutRows_Ok_valid StringToNumber _ _ _ Hw) as Hv.
  destruct (totals_bounded StringToNumber (children P) w Hv Hn Hw)
    as (lw & rw & Hl & Hrw & Hlw0 & Hrw0 & Hsum).
  assert (oLeftWidth out = Num lw) as Hol by (by rewrite Hout).
  assert (oRightWidth out = Num rw) as Hor by (by rewrite Hout).
  exists lw, (width P - lw - rw - pl - pr), rw.
  assert (oChartsWidth out = Num (width P - lw - rw - pl - pr)) as Hcw.
  { rewrite Hout. simpl. unfold plotWidth. rewrite Hl, Hrw. done. }
  assert (Forall (fun e => jsadd (Num (lw + pl)) (rx e) = Num 0)
                 (oChartRows out)) as Hrows.
  { rewrite Hout. simpl.
    eapply Forall_impl; [ apply stacked_fields | ].
    intros e (_ & -> & _). rewrite Hl. simpl. f_equal. lia. }
  assert (forall m, oTracker out = Some m ->
            mx m = Num (pl + lw) /\ mwidth m = oChartsWidth out) as Htr.
  { rewrite Hout. simpl. unfold trackerOf. intros m.
    destruct (trackerPosition P); [ | discriminate ].
    destruct (contains tr _); [ | discriminate ].
    intros [= <-]. simpl. rewrite Hl. simpl. split; [ f_equal; lia | done ]. }
  split.
  { unfold pixelBound, safeInteger in *.
    split; [ lia | ]. split; [ lia | ]. repeat constructor; lia. }
  split; [ by rewrite Hout | ]. split; [ lia | ].
  unfold svgOf. fold pl. rewrite Hol, Hor, Hcw. simpl.
  assert (Num (lw + pl) = Num (pl + lw)) as Hcomm by (f_equal; lia).
  split; [ | split ].
  - intros g Hg.
    assert (g = EventHandlerGroup (Num (lw + pl))
                  (Num (width P - lw - rw - pl - pr))
                  (jsadd (oChartsHeight out)
                         (Num (prop_or (timeAxisHeight P) 35)))
                  (oTimeScale out) (oChartRows out)) as ->.
    { destruct (oGridOver out), (oTracker out); simpl in Hg;
        repeat (apply elem_of_cons in Hg as [Hg|Hg]; [ by simplify_eq | ]);
        by apply elem_of_nil in Hg. }
    simpl. split; [ done | ]. split; [ done | ].
    by apply Forall_forall.
  - intros m Hm.
    assert (oTracker out = Some m) as Hsome.
    { destruct (oGridOver out), (oTracker out); simpl in Hm;
        repeat (apply elem_of_cons in Hm as [Hm|Hm]; [ by simplify_eq | ]);
        by apply elem_of_nil in Hm. }
    destruct (Htr m Hsome) as [-> ->]. by rewrite Hcw.
  - intros a Ha.
    assert (a = TimeAxisGroup (Num (lw + pl)) (oChartsHeight out)
                  (Num (- lw))
                  (Num (width P - lw - rw - pl - pr + rw))
                  (oTimeScale out) (utc P) (oChartsHeight out)) as ->.
    { destruct (oGridOver out), (oTracker out); simpl in Ha;
        repeat (apply elem_of_cons in Ha as [Ha|Ha]; [ by simplify_eq | ]);
        by apply elem_of_nil in Ha. }
    simpl. split; f_equal; lia.
Qed.

Lemma offsets_bounded (rows : list rowElement) (H : Z) (k : nat) :
  Forall (fun r => exists h, heightOf r = Num h /\ 0 <= h) rows ->
  sumFrom (Num 0) rows = Num H ->
  exists y, sumFrom (Num 0) (take k rows) = Num y /\ 0 <= y <= H.
Proof.
  intros Hall HH. rewrite <- (take_drop k rows) in Hall, HH.
  apply Forall_app in Hall as [Hbefore Hafter].
  destruct (sumHeights_nonneg StringParseInt ExponentParseInt _ 0 Hbefore)
    as (y & Hy & Hy0).
  destruct (sumHeights_nonneg StringParseInt ExponentParseInt _ y Hafter)
    as (b & Hb & Hle).
  exists y. split; [ done | ].
  unfold sumHeights in *. rewrite fold_left_app, Hy, Hb in HH.
  injection HH as <-. lia.
Qed.

(** X15.  For visible rows whose heights are numbers that are not negative
    and add up to at most 2^50, and a time axis height between 0 and 2^50:
    a pass that succeeds still does with the children in another order,
    with the same height of the charts and of the [<svg>] and as many
    rendered rows; in both orders every offset lies between 0 and the
    height of the charts, so that every running sum is a safe integer and
    the program computes it exactly. *)
Theorem height_row_order (P : Props) (out : rendered) (rows' : list rowElement)
    (H : Z) :
  children P ≡ₚ rows' ->
  Forall (fun r => exists h, heightOf r = Num h /\ 0 <= h)
         (shownRows (children P)) ->
  sumFrom (Num 0) (shownRows (children P)) = Num H -> H <= pixelBound ->
  0 <= prop_or (timeAxisHeight P) 35 <= pixelBound ->
  render StringToNumber StringParseInt ExponentParseInt P = Ok out ->
  exists out',
    render StringToNumber StringParseInt ExponentParseInt (withChildren P rows')
    = Ok out'
    /\ oChartsHeight out = Num H /\ oChartsHeight out' = Num H
    /\ oSvgHeight out = Num (H + prop_or (timeAxisHeight P) 35)
    /\ oSvgHeight out' = oSvgHeight out
    /\ safeInteger (H + prop_or (timeAxisHeight P) 35)
    /\ length (oChartRows out') = length (oChartRows out)
    /\ (forall e, e ∈ oChartRows out ++ oChartRows out' ->
          exists y, ry e = Num y /\ 0 <= y <= H).
Proof.
  intros Hp Hall HH Hbound Haxis Hr.
  destruct (render_Ok_inv _ _ _ _ _ Hr) as (w & tr & Hw & Htr & ->).
  assert (rows_valid rows') as Hv'.
  { pose proof (layoutRows_Ok_valid StringToNumber _ _ _ Hw) as Hv.
    unfold rows_valid, chartRowsOf in *. by rewrite <- Hp. }
  destruct (layoutRows_total StringToNumber rows' (Widths arr_empty arr_empty)
              Hv') as [w' Hw'].
  assert (render StringToNumber StringParseInt ExponentParseInt
            (withChildren P rows')
          = Ok (renderedOf StringParseInt ExponentParseInt
                  (withChildren P rows') w' tr)) as Hr'
    by (by apply render_Ok_intro).
  exists (renderedOf StringParseInt ExponentParseInt
      (withChildren P rows') w' tr).
  split; [ exact Hr' | ].
  assert (shownRows (children P) ≡ₚ shownRows rows') as Hs.
  { unfold shownRows. by rewrite Hp. }
  assert (sumFrom (Num 0) (shownRows rows') = Num H) as HH'.
  { by rewrite <- (sumHeights_perm StringParseInt ExponentParseInt _ _
      (Num 0) Hs). }
  assert (Forall (fun r => exists h, heightOf r = Num h /\ 0 <= h)
                 (shownRows rows')) as Hall' by (by rewrite <- Hs).
  assert (0 <= H) as H0.
  { destruct (sumHeights_nonneg StringParseInt ExponentParseInt _ 0 Hall)
      as (b & Hb & Hle).
    rewrite HH in Hb. injection Hb as ->. done. }
  unfold renderedOf at 1 2 3 4 5 6. simpl. rewrite HH, HH'. simpl.
  split; [ done | ]. split; [ done | ]. split; [ done | ]. split; [ done | ].
  split; [ unfold safeInteger, pixelBound in *; lia | ].
  split; [ rewrite <- !(length_fmap relem), !stacked_elems; by rewrite Hs | ].
  intros e He. apply elem_of_app in He as [He|He];
    apply list_elem_of_lookup in He as [k He].
  - destruct (render_row_lookup P _ k e Hr He) as (_ & -> & _).
    by apply offsets_bounded.
  - destruct (render_row_lookup (withChildren P rows') _ k e Hr' He)
      as (_ & -> & _).
    by apply offsets_bounded.
Qed.

End Geometry.

(** ** The dot of a legend item *)

Lemma roundHalf_even (n : Z) : Z.even n = true -> 2 * LegendItem.roundHalf n = n.
Proof.
  intros He. apply Z.even_spec in He as [k ->]. unfold LegendItem.roundHalf.
  rewrite <- (Z.div_unique (2 * k + 1) 2 k 1); lia.
Qed.

Lemma roundHalf_odd (n : Z) : Z.odd n = true -> 2 * LegendItem.roundHalf n = n + 1.
Proof.
  intros Ho. apply Z.odd_spec in Ho as [k ->]. unfold LegendItem.roundHalf.
  rewrite <- (Z.div_unique (2 * k + 1 + 1) 2 (k + 1) 0); lia.
Qed.

(** X16.  The ellipse of a dot symbol always starts at x = 4 and y = 3; it
    ends at x = [symbolWidth] and y = [symbolHeight - 1] when these are
    even, one pixel further when they are odd: it is not centred in its
    [<svg>], and for an odd width it reaches past its right edge. *)
Theorem dot_extent (symbolWidth symbolHeight : Z) :
  let e := LegendItem.renderDot symbolWidth symbolHeight in
  LegendItem.cx e - LegendItem.rx e = 4
  /\ LegendItem.cy e - LegendItem.ry e = 3
  /\ LegendItem.cx e + LegendItem.rx e
     = (if Z.even symbolWidth then symbolWidth else symbolWidth + 1)
  /\ LegendItem.cy e + LegendItem.ry e
     = (if Z.even symbolHeight then symbolHeight - 1 else symbolHeight).
Proof.
  simpl.
  assert (forall n, 2 * LegendItem.roundHalf n = if Z.even n then n else n + 1)
    as Hr.
  { intros n. destruct (Z.even n) eqn:E; [ by apply roundHalf_even | ].
    apply roundHalf_odd. by rewrite <- Z.negb_even, E. }
  pose proof (Hr symbolWidth). pose proof (Hr symbolHeight).
  destruct (Z.even symbolWidth), (Z.even symbolHeight); repeat split; lia.
Qed.

(** ** Left and right *)

Lemma plotCount_app (a b : list (option element)) :
  plotCount (a ++ b) = (plotCount a + plotCount b)%nat.
Proof. induction a as [|c a IH]; simpl; [ done | ]. rewrite IH. lia. Qed.

Lemma plotCount_reverse (cs : list (option element)) :
  plotCount (reverse cs) = plotCount cs.
Proof.
  induction cs as [|c cs IH]; [ done | ].
  rewrite reverse_cons, plotCount_app, IH. simpl. lia.
Qed.

Lemma axisSlots_app (a b : list (option element)) :
  axisSlots (a ++ b) = axisSlots a ++ axisSlots b.
Proof. apply omap_app. Qed.

Lemma axisSlots_reverse (cs : list (option element)) :
  axisSlots (reverse cs) = reverse (axisSlots cs).
Proof.
  induction cs as [|c cs IH]; [ done | ].
  rewrite reverse_cons, axisSlots_app, IH.
  change (c :: cs) with ([c] ++ cs). rewrite axisSlots_app, reverse_app.
  f_equal. unfold axisSlots. simpl.
  by destruct (if isAxisSlot c then c else None).
Qed.

Lemma one_plot_split (cs : list (option element)) :
  plotCount cs = 1%nat ->
  exists pre p post,
    cs = pre ++ p :: post /\ isPlot p = true
    /\ plotCount pre = 0%nat /\ plotCount post = 0%nat.
Proof.
  induction cs as [|c cs IH]; simpl; [ discriminate | ].
  destruct (isPlot c) eqn:E; intros Hc.
  - exists [], c, cs. repeat split; [ done | lia ].
  - destruct IH as (pre & p & post & -> & Hp & Hpre & Hpost); [ lia | ].
    exists (c :: pre), p, post. simpl. rewrite E. repeat split; try done; lia.
Qed.

Lemma slots_around_plot (pre post : list (option element)) (p : option element) :
  plotCount pre = 0%nat -> isPlot p = true ->
  slotsBefore (pre ++ p :: post) = axisSlots pre
  /\ slotsAfter (pre ++ p :: post) = axisSlots post.
Proof.
  intros Hpre Hp. induction pre as [|c pre IH]; simpl in *.
  - by rewrite Hp.
  - destruct (isPlot c) eqn:E; [ lia | ].
    destruct IH as [-> ->]; [ lia | ]. split; [ | done ].
    unfold axisSlots. simpl. by destruct (if isAxisSlot c then c else None).
Qed.

Lemma chartRowsOf_mirror (rows : list rowElement) :
  chartRowsOf (mirrorRow <$> rows) = mirrorRow <$> chartRowsOf rows.
Proof.
  unfold chartRowsOf. induction rows as [|r rows IH]; [ done | ].
  rewrite fmap_cons. destruct (decide (rtype r = ChartRow)) as [Hty|Hty].
  - rewrite !filter_cons_True by done. rewrite fmap_cons. by f_equal.
  - by rewrite !filter_cons_False by done.
Qed.

Section Mirror.

Variable StringToNumber : string -> jsnum.

Lemma mirrorRow_slots (r : rowElement) :
  plotCount (rchildren r) = 1%nat ->
  leftSlotWidths StringToNumber (mirrorRow r) = rightSlotWidths StringToNumber r
  /\ rightSlotWidths StringToNumber (mirrorRow r)
     = leftSlotWidths StringToNumber r.
Proof.
  intros Hc. unfold leftSlotWidths, rightSlotWidths, mirrorRow. simpl.
  destruct (one_plot_split _ Hc) as (pre & p & post & -> & Hp & Hpre & Hpost).
  destruct (slots_around_plot pre post p Hpre Hp) as [-> ->].
  assert (reverse (pre ++ p :: post) = reverse post ++ p :: reverse pre) as ->.
  { by rewrite reverse_app, reverse_cons, <- app_assoc. }
  destruct (slots_around_plot (reverse post) (reverse pre) p) as [-> ->];
    [ by rewrite plotCount_reverse | done | ].
  rewrite !axisSlots_reverse, !fmap_reverse. by rewrite reverse_involutive.
Qed.

(** X14.  Left and right are treated alike: for rows with one plot slot
    each and non-negative slot widths, turning the children of every row
    around exchanges the array of the left columns and the array of the
    right columns. *)
Theorem mirrored_rows_swap_sides (rows : list rowElement) :
  rows_valid rows -> widths_nonneg StringToNumber rows ->
  exists L R,
    computeAxisWidths StringToNumber rows = Ok (Widths L R)
    /\ computeAxisWidths StringToNumber (mirrorRow <$> rows) = Ok (Widths R L).
Proof.
  intros Hv Hn.
  assert (Forall (fun r => plotCount (rchildren r) = 1%nat)
                 (chartRowsOf rows)) as Hv0 by exact Hv.
  assert (leftSlotWidths StringToNumber <$> chartRowsOf (mirrorRow <$> rows)
          = rightSlotWidths StringToNumber <$> chartRowsOf rows) as Hl.
  { rewrite chartRowsOf_mirror, <- list_fmap_compose.
    apply Forall_fmap_ext. eapply Forall_impl; [ exact Hv0 | ].
    intros r Hr. simpl. by destruct (mirrorRow_slots r Hr). }
  assert (rightSlotWidths StringToNumber <$> chartRowsOf (mirrorRow <$> rows)
          = leftSlotWidths StringToNumber <$> chartRowsOf rows) as Hr.
  { rewrite chartRowsOf_mirror, <- list_fmap_compose.
    apply Forall_fmap_ext. eapply Forall_impl; [ exact Hv0 | ].
    intros r Hr. simpl. by destruct (mirrorRow_slots r Hr). }
  assert (rows_valid (mirrorRow <$> rows)) as Hv'.
  { unfold rows_valid. rewrite chartRowsOf_mirror. apply Forall_fmap.
    eapply Forall_impl; [ exact Hv0 | ].
    intros r Hc. simpl. by rewrite plotCount_reverse. }
  assert (widths_nonneg StringToNumber (mirrorRow <$> rows)) as Hn'.
  { unfold widths_nonneg in *. rewrite chartRowsOf_mirror. apply Forall_fmap.
    rewrite Forall_forall in Hn, Hv0 |- *. intros r Hin. simpl.
    destruct (mirrorRow_slots r (Hv0 r Hin)) as [-> ->].
    destruct (Hn r Hin). done. }
  do 2 eexists.
  rewrite (computeAxisWidths_columnMaxima StringToNumber rows Hv Hn).
  rewrite (computeAxisWidths_columnMaxima StringToNumber _ Hv' Hn').
  rewrite Hl, Hr. done.
Qed.

End Mirror.

(** ** The further properties at concrete containers *)

Lemma exampleRows_widths :
  computeAxisWidths noNumber exampleRows = Ok exampleWidths.
Proof. vm_compute. reflexivity. Defined.

Lemma columns_hold_every_row_witness :
  rows_valid exampleRows /\ widths_nonneg noNumber exampleRows
  /\ computeAxisWidths noNumber exampleRows = Ok exampleWidths
  /\ secondExampleRow ∈ chartRowsOf exampleRows
  /\ exists lw rw,
       arr_sum (leftAxisWidths exampleWidths) = Num lw
       /\ arr_sum (rightAxisWidths exampleWidths) = Num rw
       /\ sumZ (leftSlotWidths noNumber secondExampleRow) <= lw
       /\ sumZ (rightSlotWidths noNumber secondExampleRow) <= rw.
Proof.
  assert (secondExampleRow ∈ chartRowsOf exampleRows) as Hin.
  { apply list_elem_of_further, list_elem_of_here. }
  split; [ exact exampleRows_valid | ]. split; [ exact exampleRows_nonneg | ].
  split; [ exact exampleRows_widths | ]. split; [ exact Hin | ].
  exact (proj2 (proj2 (columns_hold_every_row noNumber exampleRows exampleWidths
                         secondExampleRow exampleRows_valid exampleRows_nonneg
                         exampleRows_widths Hin))).
Defined.

Lemma more_rows_never_narrow_witness :
  exampleRows ≡ₚ [secondExampleRow] ++ [firstExampleRow]
  /\ rows_valid exampleRows /\ widths_nonneg noNumber exampleRows
  /\ computeAxisWidths noNumber [firstExampleRow] = Ok firstRowWidths
  /\ computeAxisWidths noNumber exampleRows = Ok exampleWidths
  /\ exists lw rw lw' rw',
       arr_sum (leftAxisWidths firstRowWidths) = Num lw
       /\ arr_sum (rightAxisWidths firstRowWidths) = Num rw
       /\ arr_sum (leftAxisWidths exampleWidths) = Num lw'
       /\ arr_sum (rightAxisWidths exampleWidths) = Num rw'
       /\ lw <= lw' /\ rw <= rw'.
Proof.
  assert (exampleRows ≡ₚ [secondExampleRow] ++ [firstExampleRow]) as Hp
    by apply perm_swap.
  assert (computeAxisWidths noNumber [firstExampleRow] = Ok firstRowWidths)
    as Hw by (vm_compute; reflexivity).
  split; [ exact Hp | ].
  split; [ exact exampleRows_valid | ]. split; [ exact exampleRows_nonneg | ].
  split; [ exact Hw | ]. split; [ exact exampleRows_widths | ].
  exact (proj2 (proj2 (more_rows_never_narrow noNumber [firstExampleRow]
                         [secondExampleRow] exampleRows firstRowWidths
                         exampleWidths Hp exampleRows_valid exampleRows_nonneg
                         Hw exampleRows_widths))).
Defined.

Lemma widths_have_no_holes_witness :
  computeAxisWidths noNumber exampleRows = Ok exampleWidths
  /\ exists lw rw, arr_sum (leftAxisWidths exampleWidths) = Num lw
                   /\ arr_sum (rightAxisWidths exampleWidths) = Num rw.
Proof.
  split; [ exact exampleRows_widths | ].
  exact (proj2 (proj2 (widths_have_no_holes noNumber exampleRows exampleWidths
                         exampleRows_widths))).
Defined.

Lemma zero_width_means_invisible_witness :
  slotVisible zeroWidthSlot = true
  /\ Number noNumber (ewidth zeroWidthSlot) = Num 0
  /\ axisWidth noNumber zeroWidthSlot = 40.
Proof.
  split; [ reflexivity | ]. split; [ reflexivity | ].
  exact (proj2 (zero_width_means_invisible noNumber zeroWidthSlot)
           eq_refl eq_refl).
Defined.

Lemma container_without_rows_witness :
  chartRowsOf (children noRowProps) = []
  /\ timeRange noRowProps = Some (MkTimeRange 0 100000)
  /\ exists out,
       render noNumber noNumber noExponent noRowProps = Ok out
       /\ oChartRows out = []
       /\ oLeftWidth out = Num 0 /\ oRightWidth out = Num 0.
Proof.
  split; [ reflexivity | ]. split; [ reflexivity | ].
  destruct (container_without_rows noNumber noNumber noExponent noRowProps
              (MkTimeRange 0 100000) eq_refl eq_refl)
    as (out & H1 & H2 & H3 & H4 & _).
  exists out. auto.
Defined.

Lemma row_keys_increase_witness :
  exists out,
    render noNumber noNumber noExponent hiddenRowProps = Ok out
    /\ NoDup (rkey <$> oChartRows out).
Proof.
  eexists. split; [ vm_compute; reflexivity | ].
  exact (proj1 (proj2
      (row_keys_increase noNumber noNumber noExponent hiddenRowProps _
                         eq_refl))).
Defined.

Lemma tracker_time_on_first_child_witness :
  exists out,
    render noNumber noNumber noExponent hiddenRowProps = Ok out
    /\ forall j k e e',
         oChartRows out !! j = Some e -> oChartRows out !! k = Some e' ->
         rtrackerShowTime e = true -> rtrackerShowTime e' = true -> j = k.
Proof.
  eexists. split; [ vm_compute; reflexivity | ].
  exact (proj1 (proj2 (tracker_time_on_first_child noNumber noNumber noExponent
                         hiddenRowProps _ eq_refl))).
Defined.

Lemma rows_stack_without_gap_witness :
  exists out,
    render noNumber noNumber noExponent hiddenRowProps = Ok out
    /\ forall k e e',
         oChartRows out !! k = Some e -> oChartRows out !! S k = Some e' ->
         ry e' = jsadd (ry e) (rowHeight noNumber noExponent (relem e)).
Proof.
  eexists. split; [ vm_compute; reflexivity | ].
  exact (proj1 (proj2 (rows_stack_without_gap noNumber noNumber noExponent
                         hiddenRowProps _ eq_refl))).
Defined.

Lemma hiddenRowProps_heights :
  Forall (fun r => exists h, rowHeight noNumber noExponent r = Num h /\ 0 <= h)
         (shownRows (children hiddenRowProps)).
Proof.
  change (shownRows (children hiddenRowProps))
    with [chartRow [chartsTag] true 100; chartRow [chartsTag] true 200].
  repeat (constructor; [ eexists; split; [ reflexivity | discriminate ] | ]).
  constructor.
Defined.

Lemma rows_inside_chart_area_witness :
  Forall (fun r => exists h, rowHeight noNumber noExponent r = Num h /\ 0 <= h)
         (shownRows (children hiddenRowProps))
  /\ exists out H,
       render noNumber noNumber noExponent hiddenRowProps = Ok out
       /\ oChartsHeight out = Num H /\ 0 <= H.
Proof.
  split; [ exact hiddenRowProps_heights | ].
  assert (exists out, render noNumber noNumber noExponent hiddenRowProps =
      Ok out)
    as [out Hr] by (eexists; vm_compute; reflexivity).
  destruct
      (rows_inside_chart_area noNumber noNumber noExponent hiddenRowProps out
              hiddenRowProps_heights Hr) as (H & H1 & H2 & _).
  exists out, H. split; [ exact Hr | ]. split; [ exact H1 | exact H2 ].
Defined.

Lemma horizontal_partition_witness :
  widths_nonneg noNumber (children scenarioProps)
  /\ slotTotal noNumber (children scenarioProps) <= pixelBound
  /\ 0 <= width scenarioProps <= pixelBound
  /\ 0 <= prop_or (paddingLeft scenarioProps) (padding scenarioProps)
       <= pixelBound
  /\ 0 <= prop_or (paddingRight scenarioProps) (padding scenarioProps)
       <= pixelBound
  /\ exists svg lw cw rw,
       renderSvg noNumber noNumber noExponent scenarioProps = Ok svg
       /\ 0 + lw + cw + rw + 0 = 800.
Proof.
  assert (slotTotal noNumber (children scenarioProps) <= pixelBound) as Ht
    by (vm_compute; discriminate).
  assert (0 <= 800 <= pixelBound) as Hw by (split; vm_compute; discriminate).
  assert (0 <= 0 <= pixelBound) as Hp by (split; vm_compute; discriminate).
  split; [ exact exampleRows_nonneg | ]. split; [ exact Ht | ].
  split; [ exact Hw | ]. split; [ exact Hp | ]. split; [ exact Hp | ].
  assert (exists svg,
            renderSvg noNumber noNumber noExponent scenarioProps = Ok svg)
    as [svg Hsvg] by (eexists; vm_compute; reflexivity).
  destruct (horizontal_partition noNumber noNumber noExponent scenarioProps svg
              exampleRows_nonneg Ht Hw Hp Hp Hsvg)
    as (lw & cw & rw & _ & _ & Hsum & _).
  exists svg, lw, cw, rw. split; [ exact Hsvg | exact Hsum ].
Defined.

Lemma mirrored_rows_swap_sides_witness :
  rows_valid exampleRows /\ widths_nonneg noNumber exampleRows
  /\ exists L R,
       computeAxisWidths noNumber exampleRows = Ok (Widths L R)
       /\ computeAxisWidths noNumber (mirrorRow <$> exampleRows)
          = Ok (Widths R L).
Proof.
  split; [ exact exampleRows_valid | ]. split; [ exact exampleRows_nonneg | ].
  exact (mirrored_rows_swap_sides noNumber exampleRows
           exampleRows_valid exampleRows_nonneg).
Defined.

Lemma height_row_order_witness :
  children hiddenRowProps ≡ₚ reverse (children hiddenRowProps)
  /\ Forall (fun r => exists h, rowHeight noNumber noExponent r = Num h
                                /\ 0 <= h)
            (shownRows (children hiddenRowProps))
  /\ sumHeights noNumber noExponent (Num 0)
       (shownRows (children hiddenRowProps)) = Num 300
  /\ 300 <= pixelBound
  /\ 0 <= prop_or (timeAxisHeight hiddenRowProps) 35 <= pixelBound
  /\ exists out out',
       render noNumber noNumber noExponent hiddenRowProps = Ok out
       /\ render noNumber noNumber noExponent
            (withChildren hiddenRowProps (reverse (children hiddenRowProps)))
          = Ok out'
       /\ oChartsHeight out' = Num 300.
Proof.
  assert (children hiddenRowProps ≡ₚ reverse (children hiddenRowProps)) as Hp.
  { symmetry. apply reverse_Permutation. }
  assert (300 <= pixelBound) as Hb by (vm_compute; discriminate).
  assert (0 <= prop_or (timeAxisHeight hiddenRowProps) 35 <= pixelBound) as Ha
    by (split; vm_compute; discriminate).
  split; [ exact Hp | ]. split; [ exact hiddenRowProps_heights | ].
  split; [ reflexivity | ]. split; [ exact Hb | ]. split; [ exact Ha | ].
  assert (exists out, render noNumber noNumber noExponent hiddenRowProps =
      Ok out)
    as [out Hr] by (eexists; vm_compute; reflexivity).
  destruct (height_row_order noNumber noNumber noExponent hiddenRowProps out
              (reverse (children hiddenRowProps)) 300 Hp
              hiddenRowProps_heights eq_refl Hb Ha Hr)
    as (out' & H1 & _ & H2 & _).
  exists out, out'. split; [ exact Hr | ]. split; [ exact H1 | exact H2 ].
Defined.

